(** * Slack channel curator: the action-execution engine

    A shallow embedding of [src/channel_actions.py] (the action handler) and
    [src/channel_manager.py] (the approval gate, the snapshot accessor and the
    execution orchestrator), with the properties of the engine proved over it.

    Conventions of the embedding.
    - A Python [str] is a [string]; a character is a Latin-1 code point
      (U+0000..U+00FF), and Python's character predicates are written out on
      that range.
    - The remote client is a function from the calls made so far to the answer
      of the next call; every call is appended to a history, so that "which
      remote calls were issued" is a statement about that history.
    - The operator's terminal is the list of lines still to be read.
    - [print] statements are not modelled, except for the counters of the
      final execution summary, which are returned with the result. *)

From Stdlib Require Import String Ascii List Bool Arith NArith ZArith Lia.
From Stdlib Require Import Permutation DecimalString.
Import ListNotations.
Local Open Scope list_scope.
Local Open Scope string_scope.

Set Implicit Arguments.

(** ** Python strings *)

Module Py.

Definition code (c : ascii) : N := N_of_ascii c.

Definition between (lo hi : N) (c : ascii) : bool :=
  ((lo <=? code c) && (code c <=? hi))%N.

Definition is_code (n : N) (c : ascii) : bool := (code c =? n)%N.

(** [c.islower()], [c.isupper()], [c.isdigit()], [c.isspace()] for a
    one-character string [c]. *)
Definition ch_islower (c : ascii) : bool :=
  between 97 122 c || is_code 170 c || is_code 181 c || is_code 186 c
  || between 223 246 c || between 248 255 c.

Definition ch_isupper (c : ascii) : bool :=
  between 65 90 c || between 192 214 c || between 216 222 c.

Definition ch_isdigit (c : ascii) : bool :=
  between 48 57 c || is_code 178 c || is_code 179 c || is_code 185 c.

Definition ch_isspace (c : ascii) : bool :=
  between 9 13 c || between 28 32 c || is_code 133 c || is_code 160 c.

(** No Latin-1 character is titlecase (category Lt). *)
Definition ch_istitle (c : ascii) : bool := false.

Definition ch_lower (c : ascii) : ascii :=
  if ch_isupper c then ascii_of_N (code c + 32) else c.

Fixpoint all (p : ascii -> bool) (s : string) : bool :=
  match s with
  | EmptyString => true
  | String c s' => p c && all p s'
  end.

Fixpoint any (p : ascii -> bool) (s : string) : bool :=
  match s with
  | EmptyString => false
  | String c s' => p c || any p s'
  end.

(** [c in s] for a one-character [c]. *)
Definition contains (c : ascii) (s : string) : bool := any (Ascii.eqb c) s.

(** [s.islower()]: no uppercase or titlecase character and at least one
    lowercase one. *)
Definition islower (s : string) : bool :=
  negb (any (fun c => ch_isupper c || ch_istitle c) s) && any ch_islower s.

(** [s.lower()] *)
Fixpoint lower (s : string) : string :=
  match s with
  | EmptyString => EmptyString
  | String c s' => String (ch_lower c) (lower s')
  end.

(** [s.lstrip(c)] for a one-character [c]. *)
Fixpoint lstrip (c : ascii) (s : string) : string :=
  match s with
  | EmptyString => EmptyString
  | String d s' => if Ascii.eqb d c then lstrip c s' else s
  end.

Fixpoint lstrip_ws (s : string) : string :=
  match s with
  | EmptyString => EmptyString
  | String d s' => if ch_isspace d then lstrip_ws s' else s
  end.

Fixpoint rstrip_ws (s : string) : string :=
  match s with
  | EmptyString => EmptyString
  | String d s' =>
      match rstrip_ws s' with
      | EmptyString => if ch_isspace d then EmptyString else String d EmptyString
      | r => String d r
      end
  end.

(** [s.strip()] *)
Definition strip (s : string) : string := rstrip_ws (lstrip_ws s).

(** Truth value of a string, and of an [Optional[str]]. *)
Definition truthy (s : string) : bool :=
  match s with EmptyString => false | _ => true end.

Definition truthy_opt (v : option string) : bool :=
  match v with Some s => truthy s | None => false end.

(** [str(n)] for a natural number. *)
Definition str_nat (n : nat) : string := NilEmpty.string_of_uint (Nat.to_uint n).

End Py.

(** ** The action kinds ([class ChannelAction(str, Enum)]) *)

Inductive ChannelAction := KEEP | ARCHIVE | RENAME | NEW | UPDATE_DESCRIPTION.

Definition value (a : ChannelAction) : string :=
  match a with
  | KEEP => "keep"
  | ARCHIVE => "archive"
  | RENAME => "rename"
  | NEW => "new"
  | UPDATE_DESCRIPTION => "update_description"
  end.

Definition values : list string :=
  map value [KEEP; ARCHIVE; RENAME; NEW; UPDATE_DESCRIPTION].

Definition in_values (s : string) : bool := existsb (String.eqb s) values.

(** ** Channel records (the rows of the spreadsheet)

    A row is a Python dict [channel].  [channel_id] and [name] are only ever read after
    the truthiness test of the orchestrator, which does not tell an absent
    key, [None] and the empty string apart: the three are the empty string
    here.  For [action] and [target_value], [None] is Python's [None] and an
    absent key is the empty string (the default of [channel.get(key, "")]).
    [member_count] is what [int(channel.get("member_count", 0))] makes of the
    entry: [None] when [int] raises.  The entries that are only printed
    ([is_private], [created_date], [notes]) are left out. *)

Record ChannelRecord := {
  channel_id : string;
  name : string;
  action : option string;
  target_value : option string;
  member_count : option Z
}.

(** ** Ordering of the batch *)

(** [action_priority], the sort key of [execute_channel_actions]. *)
Definition action_priority (ch : ChannelRecord) : nat :=
  match action ch with
  | None => 3
  | Some a =>
      if negb (Py.truthy a) then 3
      else
        let a := Py.lower a in
        if String.eqb a (value KEEP) then 2
        else if String.eqb a (value RENAME) then 0
        else if String.eqb a (value ARCHIVE) then 1
        else 3
  end.

(** [sorted(l, key=key)]: Python's sort is stable, and is modelled by the
    stable insertion of each element before the first one with a key that is
    not smaller. *)
Section Sorted.
Variable A : Type.
Variable key : A -> nat.

Fixpoint insert (x : A) (l : list A) : list A :=
  match l with
  | [] => [x]
  | y :: l' => if Nat.leb (key x) (key y) then x :: l else y :: insert x l'
  end.

Fixpoint sorted (l : list A) : list A :=
  match l with
  | [] => []
  | x :: l' => insert x (sorted l')
  end.

Definition with_key (k : nat) (l : list A) : list A :=
  filter (fun x => Nat.eqb (key x) k) l.

(** [ordered l]: no element comes before one of a smaller key. *)
Definition ordered (l : list A) : Prop :=
  forall l1 x l2 y l3, l = (l1 ++ x :: l2 ++ y :: l3)%list -> key x <= key y.

End Sorted.

(** ** The remote service and the terminal *)

(** A channel object of the remote service (the dict under
    [response["channel"]], and each entry of [response["channels"]]), with the
    entries that the engine tests; [purpose], [topic] and [last_read] are only
    displayed by the gate and are left out. *)
Module Conv.
Record t := {
  id : string;
  name : string;
  is_archived : bool;
  is_general : bool;
  is_member : bool;
  num_members : Z
}.
End Conv.

(** The answer to a call that returned; [error] is only present in an answer
    that is not [ok]. *)
Record response := {
  ok : bool;
  error : option string;
  channel : Conv.t
}.

(** What the handler finds when it reads the pause of a rate limit off the
    response of an error, [e.response.get("headers", {}).get("Retry-After")],
    and passes it to [int].  [e.response] holds the body of the answer, not
    the headers of the HTTP exchange: the entry is there only when the body
    itself has a [headers] entry with a [Retry-After].  [Seconds n]: [int]
    makes [n] of the entry; [Unreadable text]: the expression raises (an
    entry that [int] rejects, a [headers] entry that is no dict), and [text]
    is the text of that exception. *)
Inductive retry_after_value :=
| Seconds (n : Z)
| Unreadable (text : string).

(** What a call of the client does: it returns a response, raises a
    [SlackApiError] with the error code of the service, the [Retry-After]
    entry of its response when there is one ([None] when the response has
    none), and its text, or fails in any other way (an exception of another
    class). *)
Inductive reply :=
| Returns (r : response)
| Fails (code : string) (retry_after : option retry_after_value) (text : string)
| Crashes (text : string).

(** A paginated listing: the answer to the request of each page, in order.
    A page carries a continuation token ([next_cursor]) exactly when another
    page follows it, so a listing has finitely many pages.  [page_text] is
    the page as [str(response)] shows it. *)
Record page := {
  page_ok : bool;
  page_error : option string;
  channels : list Conv.t;
  page_text : string
}.

Inductive page_reply :=
| PageReturns (p : page)
| PageFails (code : string) (retry_after : option retry_after_value) (text : string)
| PageCrashes (text : string).

Record listing := {
  first : page_reply;
  following : list page_reply
}.

Inductive call :=
| conversations_list (exclude_archived : bool)
| conversations_info (channel : string)
| conversations_archive (channel : string)
| conversations_rename (channel new_name : string)
| conversations_setPurpose (channel purpose : string)
| conversations_join (channel : string)
| conversations_leave (channel : string)
| chat_postMessage (channel target_id : string).

(** What happened so far, in order: remote calls, lines read from the
    terminal ([None] at the end of the input), and pauses. *)
Inductive event :=
| Call (c : call)
| Input (line : option string)
| Sleep (seconds : nat).

Definition history := list event.

(** The client: its answers may depend on everything that happened before. *)
Record client := {
  answer : history -> call -> reply;
  listing_of : history -> bool -> listing
}.

Record state := {
  past : history;
  stdin : list string
}.

Definition log (e : event) (st : state) : state :=
  {| past := (past st ++ [e])%list; stdin := stdin st |}.

(** ** Statements

    A statement of a function that returns an [R] runs on the state and ends
    normally with a value, with a [return], or with an exception.

    [SlackApiError code retry_after text] is a [SlackApiError] that the
    client raised: its response has the error code [code].
    [SlackPageError response] is the
    [SlackApiError("Failed to fetch channels", response)] that
    [get_all_channels] raises itself for a page that came back without [ok]:
    its response is that page, which need not have an error code, and its
    text is the message followed by the page. *)

Inductive exn :=
| SlackApiError (code : string) (retry_after : option retry_after_value) (text : string)
| KeyboardInterrupt (text : string)
| ValueError (text : string)
| OtherError (text : string)
| SlackPageError (response : page).

Definition newline : string := String (ascii_of_nat 10) EmptyString.

(** [str(e)]; for a [SlackApiError(message, response)] the SDK makes it
    [f"{message}\nThe server responded with: {response}"]. *)
Definition str (e : exn) : string :=
  match e with
  | SlackApiError _ _ text => text
  | KeyboardInterrupt text => text
  | ValueError text => text
  | OtherError text => text
  | SlackPageError response =>
      "Failed to fetch channels" ++ newline ++ "The server responded with: "
      ++ page_text response
  end.

(** [isinstance(e, Exception)]: [KeyboardInterrupt] is not one. *)
Definition is_Exception (e : exn) : bool :=
  match e with KeyboardInterrupt _ => false | _ => true end.

Inductive outcome (R A : Type) :=
| Normal (a : A)
| Returned (r : R)
| Raised (e : exn).
Arguments Normal {R A} a.
Arguments Returned {R A} r.
Arguments Raised {R A} e.

Definition stmt (R A : Type) : Type := state -> outcome R A * state.

Definition ret {R A} (a : A) : stmt R A := fun st => (Normal a, st).

Definition bind {R A B} (m : stmt R A) (k : A -> stmt R B) : stmt R B :=
  fun st =>
    match m st with
    | (Normal a, st') => k a st'
    | (Returned r, st') => (Returned r, st')
    | (Raised e, st') => (Raised e, st')
    end.

Notation "x <- m ;; k" := (bind m (fun x => k))
  (at level 61, m at next level, right associativity).
Notation "m >> k" := (bind m (fun _ => k))
  (at level 61, right associativity).

Definition return_ {R A} (r : R) : stmt R A := fun st => (Returned r, st).

Definition raise {R A} (e : exn) : stmt R A := fun st => (Raised e, st).

Definition pass {R} : stmt R unit := ret tt.

(** [try: body / except ...: handler]; [handler e] is [None] when no clause
    matches [e]. *)
Definition try_ {R A} (body : stmt R A) (handler : exn -> option (stmt R A))
  : stmt R A :=
  fun st =>
    match body st with
    | (Raised e, st') =>
        match handler e with
        | Some h => h st'
        | None => (Raised e, st')
        end
    | res => res
    end.

(** [except SlackApiError as e]: the clause gets [e.response["error"]], the
    [Retry-After] entry of [e.response] and [str(e)].  The response of a
    [SlackPageError] is a page of the SDK, on which [response["error"]] is
    [None] when there is no such entry; the clauses compare the code with
    theirs and print it, and [None] is printed as [None].  A page keeps no
    [headers] entry here. *)
Definition except_SlackApiError {R A}
  (h : string -> option retry_after_value -> string -> stmt R A) (e : exn)
  : option (stmt R A) :=
  match e with
  | SlackApiError code retry_after text => Some (h code retry_after text)
  | SlackPageError response =>
      Some (h (match page_error response with Some code => code | None => "None" end)
              None (str e))
  | _ => None
  end.

(** [except Exception as e] *)
Definition except_Exception {R A} (h : exn -> stmt R A) (e : exn)
  : option (stmt R A) :=
  if is_Exception e then Some (h e) else None.

(** The call of a function whose body is [body]: the value of a [return], or
    the value the body ends with. *)
Definition def {R R' : Type} (body : stmt R R) : stmt R' R :=
  fun st =>
    match body st with
    | (Normal r, st') => (Normal r, st')
    | (Returned r, st') => (Normal r, st')
    | (Raised e, st') => (Raised e, st')
    end.

(** A call of the remote client. *)
Definition request {R} (cl : client) (c : call) : stmt R response :=
  fun st =>
    let st' := log (Call c) st in
    match answer cl (past st) c with
    | Returns r => (Normal r, st')
    | Fails code retry_after text => (Raised (SlackApiError code retry_after text), st')
    | Crashes text => (Raised (OtherError text), st')
    end.

(** [await asyncio.sleep(seconds)] *)
Definition sleep {R} (seconds : nat) : stmt R unit :=
  fun st => (Normal tt, log (Sleep seconds) st).

(** The request of one page of a listing. *)
Definition request_page {R} (exclude_archived : bool) (p : page_reply)
  : stmt R page :=
  fun st =>
    let st' := log (Call (conversations_list exclude_archived)) st in
    match p with
    | PageReturns p => (Normal p, st')
    | PageFails code retry_after text =>
        (Raised (SlackApiError code retry_after text), st')
    | PageCrashes text => (Raised (OtherError text), st')
    end.

(** The listing that a first request (without a token) starts. *)
Definition start_listing {R} (cl : client) (exclude_archived : bool)
  : stmt R listing :=
  fun st => (Normal (listing_of cl (past st) exclude_archived), st).

(** [next((ch for ch in channels if ch["name"] == name), None)] *)
Definition find_by_name (name : string) (channels : list Conv.t) : option Conv.t :=
  find (fun ch => String.eqb (Conv.name ch) name) channels.

(** [any(ch["name"] == name for ch in channels)] *)
Definition name_taken (name : string) (channels : list Conv.t) : bool :=
  existsb (fun ch => String.eqb (Conv.name ch) name) channels.

(** Truth value of a list, and of an [Optional[list]]. *)
Definition nonempty {A} (l : list A) : bool :=
  match l with [] => false | _ => true end.

Definition nonempty_opt {A} (l : option (list A)) : bool :=
  match l with Some l => nonempty l | None => false end.

Definition list_of {A} (l : option (list A)) : list A :=
  match l with Some l => l | None => [] end.

(** ** The action handler ([class ChannelActionHandler]) *)

Record ChannelActionResult := {
  success : bool;
  message : string
}.

(** A Python function without a [return] on some path returns [None] there:
    the handler's methods return an optional result. *)
Definition result (success : bool) (message : string) : option ChannelActionResult :=
  Some {| success := success; message := message |}.

Definition str_of (v : option string) : string :=
  match v with Some s => s | None => "" end.

(** The character test of both name validations:
    [c.islower() or c.isdigit() or c in '-_']. *)
Definition name_char (c : ascii) : bool :=
  Py.ch_islower c || Py.ch_isdigit c || Py.contains c "-_".

Section Handler.
Variable cl : client.

(** The fresh lookup of the redirect target, page after page
    ([while True and not target]). *)
Fixpoint find_target {R} (this : page_reply) (rest : list page_reply)
  (target_channel : string) : stmt R (option Conv.t) :=
  response <- request_page false this ;;
  match find_by_name target_channel (channels response) with
  | Some found_target => ret (Some found_target)
  | None =>
      match rest with
      | [] => ret None
      | next :: rest' => find_target next rest' target_channel
      end
  end.

Definition archive_error_message (channel_name error : string) : string :=
  if String.eqb error "already_archived" then
    "#" ++ channel_name ++ " is already archived"
  else if String.eqb error "cant_archive_general" then
    "Cannot archive #" ++ channel_name ++ ": This is the workspace's general channel"
  else if String.eqb error "cant_archive_required" then
    "Cannot archive #" ++ channel_name ++ ": This is a required channel"
  else if String.eqb error "not_in_channel" then
    "Cannot archive #" ++ channel_name ++ ": You must be a member of the channel"
  else if String.eqb error "restricted_action" then
    "Cannot archive #" ++ channel_name
      ++ ": Your workspace settings prevent channel archiving"
  else if String.eqb error "missing_scope" then
    "Cannot archive #" ++ channel_name ++ ": Missing required permissions. "
      ++ "Need channels:write for public channels or groups:write for private channels."
  else "Failed to archive #" ++ channel_name ++ ": " ++ error.

Definition archive_channel {R} (channel_id channel_name : string)
  (target_channel : option string) (current_channels : option (list Conv.t))
  : stmt R (option ChannelActionResult) :=
  def (
    try_ (
      (* First check channel info and status *)
      try_ (
        response <- request cl (conversations_info channel_id) ;;
        let channel_info := channel response in
        if Conv.is_archived channel_info then
          return_ (result false ("#" ++ channel_name ++ " is already archived"))
        else if Conv.is_general channel_info then
          return_ (result false ("Cannot archive #" ++ channel_name
                                 ++ ": This is the workspace's general channel"))
        else pass)
        (except_SlackApiError (fun code retry_after text =>
          if String.eqb code "channel_not_found" then
            return_ (result false ("Cannot archive #" ++ channel_name
                                   ++ ": Channel not found"))
          else raise (SlackApiError code retry_after text))) >>
      (* If target channel specified, handle redirect notice *)
      target_channel <-
        (if Py.truthy_opt target_channel then
           let target_channel := Py.lstrip "#" (str_of target_channel) in
           try_ (
             target <-
               (if nonempty_opt current_channels then
                  ret (find_by_name target_channel (list_of current_channels))
                else
                  l <- start_listing cl false ;;
                  find_target (first l) (following l) target_channel) ;;
             match target with
             | None =>
                 return_ (result false ("Cannot archive #" ++ channel_name
                   ++ ": Target channel #" ++ target_channel ++ " does not exist"))
             | Some target =>
                 if Conv.is_archived target then
                   return_ (result false ("Cannot archive #" ++ channel_name
                     ++ ": Target channel #" ++ target_channel ++ " is archived"))
                 else
                   let target_id := Conv.id target in
                   try_ (
                     try_ (request cl (conversations_join channel_id) >> pass)
                       (except_SlackApiError (fun _ _ _ => pass)) >>
                     request cl (chat_postMessage channel_id target_id) >> pass)
                     (except_SlackApiError (fun _ _ _ => pass))
             end)
             (except_SlackApiError (fun _ _ _ =>
               return_ (result false ("Cannot archive #" ++ channel_name
                                      ++ ": Failed to verify target channel")))) >>
           ret (Some target_channel)
         else ret target_channel) ;;
      (* Archive the channel *)
      response <- request cl (conversations_archive channel_id) ;;
      if ok response then
        let message : string := "Successfully archived #" ++ channel_name in
        let message : string :=
          if Py.truthy_opt target_channel
          then message ++ " (with redirect to #" ++ str_of target_channel ++ ")"
          else message in
        return_ (result true message)
      else ret None)
      (except_SlackApiError (fun error _ _ =>
        return_ (result false (archive_error_message channel_name error))))).

(** The local validation of [rename_channel]: the failure it returns before
    any remote call, if any. *)
Definition rename_validation (old_name new_name : string)
  : option ChannelActionResult :=
  if negb (Py.truthy new_name) then
    result false ("Cannot rename " ++ old_name ++ ": New name cannot be empty")
  else if Nat.ltb 80 (String.length new_name) then
    result false ("Cannot rename " ++ old_name ++ ": New name exceeds 80 characters")
  else if negb (Py.all name_char new_name) || Py.contains "." new_name then
    result false ("Cannot rename " ++ old_name
      ++ ": Channel names can only contain lowercase letters, "
      ++ "numbers, hyphens, and underscores")
  else None.

Definition rename_error_message (old_name new_name error : string) : string :=
  if String.eqb error "not_authorized" then
    "You don't have permission to rename this channel. "
      ++ "Only channel creators, workspace admins, or channel managers can rename channels."
  else if String.eqb error "name_taken" then
    "Cannot rename " ++ old_name ++ ": The name '" ++ new_name ++ "' is already taken"
  else if String.eqb error "invalid_name" then
    "Cannot rename " ++ old_name ++ ": Invalid channel name format"
  else if String.eqb error "not_in_channel" then
    "Cannot rename " ++ old_name ++ ": You must be a member of the channel"
  else if String.eqb error "is_archived" then
    "Cannot rename " ++ old_name ++ ": Channel is archived"
  else "Failed to rename " ++ old_name ++ ": " ++ error.

Definition rename_channel {R} (channel_id old_name new_name : string)
  : stmt R (option ChannelActionResult) :=
  def (
    match rename_validation old_name new_name with
    | Some failure => return_ (Some failure)
    | None => pass
    end >>
    try_ (
      response <- request cl (conversations_rename channel_id new_name) ;;
      if ok response then
        let actual_name := Conv.name (channel response) in
        if negb (String.eqb actual_name new_name) then
          return_ (result true ("Successfully renamed " ++ old_name ++ " to "
            ++ actual_name ++ " (name was modified to meet Slack's requirements)"))
        else
          return_ (result true ("Successfully renamed " ++ old_name ++ " to " ++ new_name))
      else ret None)
      (except_SlackApiError (fun error _ _ =>
        return_ (result false (rename_error_message old_name new_name error))))).

Definition max_retries : nat := 3.

Definition update_error_message (channel_name error : string) : string :=
  if String.eqb error "not_in_channel" then
    "Cannot update description for #" ++ channel_name
      ++ ": You must be a member of the channel"
  else if String.eqb error "is_archived" then
    "Cannot update description for #" ++ channel_name ++ ": Channel is archived"
  else if String.eqb error "missing_scope" then
    "Cannot update description for #" ++ channel_name ++ ": Missing required permissions"
  else if String.eqb error "not_authorized" then
    "Cannot update description for #" ++ channel_name
      ++ ": You don't have permission to update the description"
  else "Failed to update description for #" ++ channel_name ++ ": " ++ error.

(** How one turn of the retry loop ends, when it does not return. *)
Inductive turn := Break | Continue.

(** [int(e.response.get("headers", {}).get("Retry-After", 5))]: 5 when the
    response has no such entry, and an exception when the expression
    raises. *)
Definition backoff {R} (retry_after : option retry_after_value) : stmt R Z :=
  match retry_after with
  | None => ret 5%Z
  | Some (Seconds seconds) => ret seconds
  | Some (Unreadable text) => raise (ValueError text)
  end.

(** [while retry_count < max_retries], by recursion on
    [remaining = max_retries - retry_count]; the value is the final
    [retry_count]. *)
Fixpoint set_purpose_loop (channel_id channel_name new_description : string)
  (was_member : bool) (remaining retry_count : nat)
  : stmt (option ChannelActionResult) nat :=
  match remaining with
  | 0 => ret retry_count
  | S remaining' =>
      next <-
        try_ (
          response <- request cl (conversations_setPurpose channel_id new_description) ;;
          (* Leave the channel if we weren't originally a member *)
          (if negb was_member then
             try_ (request cl (conversations_leave channel_id) >> pass)
               (except_SlackApiError (fun _ _ _ => pass))
           else pass) >>
          if ok response then
            return_ (result true ("Successfully updated description for #" ++ channel_name))
          else ret Break)
          (except_SlackApiError (fun error retry_after _ =>
            if String.eqb error "ratelimited" then
              retry_after <- backoff retry_after ;;
              (* asyncio.sleep of a delay that is not positive returns at once *)
              sleep (Z.to_nat retry_after) >> ret Continue
            else
              (* Leave the channel if we joined but couldn't update *)
              (if negb was_member then
                 try_ (request cl (conversations_leave channel_id) >> pass)
                   (except_SlackApiError (fun _ _ _ => pass))
               else pass) >>
              return_ (result false (update_error_message channel_name error)))) ;;
      match next with
      | Break => ret retry_count
      | Continue =>
          set_purpose_loop channel_id channel_name new_description was_member
            remaining' (S retry_count)
      end
  end.

(** The handler of the outer [try] of [update_description]; it reads
    [was_member] as it is when the exception arrives. *)
Definition update_description_failed (channel_id channel_name : string)
  (was_member : bool) (e : exn) : stmt (option ChannelActionResult) (option ChannelActionResult) :=
  (if negb was_member then
     try_ (request cl (conversations_leave channel_id) >> pass)
       (except_Exception (fun _ => pass))
   else pass) >>
  return_ (result false ("Unexpected error updating description for #"
                         ++ channel_name ++ ": " ++ str e)).

(** The first part of [update_description]: the state of the channel and
    the membership of the caller.  [was_member] is [True] until this part
    has assigned it, which is its last step, so the outer handler runs with
    [was_member = True] for every exception of this part. *)
Definition update_description_membership (channel_id channel_name : string)
  : stmt (option ChannelActionResult) bool :=
  let was_member := true in
  try_ (
    try_ (
      response <- request cl (conversations_info channel_id) ;;
      let channel_info := channel response in
      if Conv.is_archived channel_info then
        return_ (result false ("Cannot update description for #" ++ channel_name
                               ++ ": Channel is archived"))
      else ret (Conv.is_member channel_info))
      (except_SlackApiError (fun code retry_after text =>
        if String.eqb code "channel_not_found" then
          return_ (result false ("Cannot update description for #" ++ channel_name
                                 ++ ": Channel not found"))
        else raise (SlackApiError code retry_after text))))
    (except_Exception (fun e =>
      update_description_failed channel_id channel_name was_member e >> ret was_member)).

(** The second part: joining when the caller is not a member. *)
Definition update_description_join (channel_id channel_name : string)
  (was_member : bool) : stmt (option ChannelActionResult) unit :=
  if negb was_member then
    try_ (
      join_response <- request cl (conversations_join channel_id) ;;
      if negb (ok join_response) then
        return_ (result false ("Cannot update description for #" ++ channel_name
                               ++ ": Failed to join channel"))
      else pass)
      (except_SlackApiError (fun error _ _ =>
        if existsb (String.eqb error)
             ["method_not_supported_for_channel_type"; "channel_not_found"; "missing_scope"]
        then
          return_ (result false ("Cannot update description for #" ++ channel_name
            ++ ": Not a member and unable to join (" ++ error ++ ")"))
        else pass))
  else pass.

(** The third part: the update with its retries, and what follows the
    loop. *)
Definition update_description_apply (channel_id channel_name new_description : string)
  (was_member : bool) : stmt (option ChannelActionResult) (option ChannelActionResult) :=
  retry_count <-
    set_purpose_loop channel_id channel_name new_description was_member
      max_retries 0 ;;
  if Nat.leb max_retries retry_count then
    (if negb was_member then
       try_ (request cl (conversations_leave channel_id) >> pass)
         (except_SlackApiError (fun _ _ _ => pass))
     else pass) >>
    return_ (result false ("Failed to update description for #" ++ channel_name
      ++ ": Rate limit exceeded after " ++ Py.str_nat max_retries ++ " retries"))
  else ret None.

Definition update_description {R} (channel_id channel_name new_description : string)
  : stmt R (option ChannelActionResult) :=
  def (
    was_member <- update_description_membership channel_id channel_name ;;
    try_ (
      update_description_join channel_id channel_name was_member >>
      update_description_apply channel_id channel_name new_description was_member)
      (except_Exception (update_description_failed channel_id channel_name was_member))).

Definition execute_action {R} (channel_id channel_name action : string)
  (target_value : option string) (current_channels : option (list Conv.t))
  : stmt R (option ChannelActionResult) :=
  def (
    try_ (
      if String.eqb action (value KEEP) then
        return_ (result true ("Channel " ++ channel_name ++ " kept as is"))
      else if String.eqb action (value NEW) then
        return_ (result false ("Channel " ++ channel_name
          ++ " needs review - please change action from 'new'"))
      else if String.eqb action (value ARCHIVE) then
        response <- archive_channel channel_id channel_name target_value current_channels ;;
        return_ response
      else if String.eqb action (value RENAME) then
        if negb (Py.truthy_opt target_value) then
          return_ (result false ("New name not specified for renaming " ++ channel_name))
        else
          response <- rename_channel channel_id channel_name (str_of target_value) ;;
          return_ response
      else if String.eqb action (value UPDATE_DESCRIPTION) then
        if match target_value with
           | None => true
           | Some d => String.eqb (Py.strip d) ""
           end
        then
          return_ (result false ("New description not specified for " ++ channel_name))
        else
          response <- update_description channel_id channel_name (str_of target_value) ;;
          return_ response
      else
        return_ (result false ("Unknown action '" ++ action ++ "' for channel "
                               ++ channel_name)))
      (fun e =>
        match e with
        | SlackApiError error _ _ =>
            Some (return_ (result false ("Slack API error for " ++ channel_name
                                         ++ ": " ++ error)))
        | e =>
            except_Exception (fun e =>
              return_ (result false ("Unexpected error for " ++ channel_name
                                     ++ ": " ++ str e))) e
        end)).

End Handler.

(** ** The snapshot accessor and the approval gate *)

Section Manager.
Variable cl : client.

(** [e.response.get("error", "unknown_error")] for a [SlackApiError] [e];
    [None] when [e] is of another class. *)
Definition error_code (e : exn) : option string :=
  match e with
  | SlackApiError code _ _ => Some code
  | SlackPageError response =>
      Some (match page_error response with
            | Some code => code
            | None => "unknown_error"
            end)
  | _ => None
  end.

(** One turn of the [while True] of [get_all_channels] for each page; the
    test of the continuation token and the pause, which raise nothing, come
    after the handler. *)
Fixpoint get_all_channels_pages {R} (this : page_reply) (rest : list page_reply)
  (all_channels : list Conv.t) : stmt R (list Conv.t) :=
  all_channels <-
    try_ (
      response <- request_page true this ;;
      (if negb (page_ok response) then raise (SlackPageError response) else pass) >>
      ret (all_channels ++ channels response)%list)
      (fun e =>
        match error_code e with
        | Some error_code =>
            Some (
              if existsb (String.eqb error_code) ["missing_scope"; "invalid_auth"] then
                raise (ValueError
                  ("Missing required scopes or invalid authentication. "
                   ++ "Ensure your token has channels:read and groups:read scopes."))
              else raise e)
        | None => None
        end) ;;
  match rest with
  | [] => ret all_channels
  | next :: rest' => sleep 1 >> get_all_channels_pages next rest' all_channels
  end.

Definition get_all_channels {R} : stmt R (list Conv.t) :=
  def (
    l <- start_listing cl true ;;
    get_all_channels_pages (first l) (following l) []).

(** [get_channel_info]: the channel object, or the empty dict ([None]
    here) when the service refuses. *)
Definition get_channel_info {R} (channel_id : string) : stmt R (option Conv.t) :=
  def (
    try_ (
      response <- request cl (conversations_info channel_id) ;;
      return_ (Some (channel response)))
      (except_SlackApiError (fun _ _ _ => return_ None))).

(** The name checks of the gate for a rename: the error it prints, if
    any. *)
Definition rename_check (target_value : string) : option string :=
  if Nat.ltb 80 (String.length target_value) then
    Some "Error: Channel name is too long!"
  else if negb (Py.islower target_value) || Py.contains " " target_value
          || Py.contains "." target_value then
    Some "Error: Invalid channel name format!"
  else if negb (Py.all name_char target_value) then
    Some "Error: Channel name contains invalid characters!"
  else None.

(** The prompt: [while True: response = input(...).lower() ...].  Reading
    at the end of the input raises [EOFError]. *)
Fixpoint prompt {A} (lines : list string) : stmt bool A :=
  fun st =>
    match lines with
    | [] =>
        (Raised (OtherError "EOF when reading a line"),
         log (Input None) {| past := past st; stdin := [] |})
    | line :: lines' =>
        let st' := log (Input (Some line)) {| past := past st; stdin := lines' |} in
        let response := Py.lower line in
        if String.eqb response "q" then
          (Raised (KeyboardInterrupt "User requested to quit"), st')
        else if existsb (String.eqb response) ["y"; "n"] then
          (Returned (String.eqb response "y"), st')
        else prompt lines' st'
    end.

(** [get_user_approval]: the lookups and the checks that decide whether the
    operator is asked at all, then the prompt.  What the gate displays (the
    description of the channel and of its target, the warnings) is not
    modelled; of the comparison of the member counts only the conversion of
    the record's [member_count] remains, which can raise. *)
Definition get_user_approval {R} (ch : ChannelRecord) (action : string)
  (target_value : option string) (current_channels : option (list Conv.t))
  : stmt R bool :=
  def (
    (* Get detailed channel info *)
    channel_info <- get_channel_info (channel_id ch) ;;
    (* For archive actions with target channel, show target channel info *)
    (if String.eqb action (value ARCHIVE) && Py.truthy_opt target_value then
       try_ (
         let target_name := Py.lstrip "#" (str_of target_value) in
         target <-
           (if nonempty_opt current_channels then
              ret (find_by_name target_name (list_of current_channels))
            else
              l <- start_listing cl true ;;
              target_channels <- request_page true (first l) ;;
              ret (find_by_name target_name (channels target_channels))) ;;
         match target with
         | Some target =>
             target_info <- get_channel_info (Conv.id target) ;;
             match member_count ch with
             | Some source_members => pass
             | None => raise (ValueError "invalid literal for int()")
             end
         | None => return_ false
         end)
         (except_SlackApiError (fun _ _ _ => return_ false))
     else pass) >>
    (* For rename actions, validate the new name *)
    (if String.eqb action (value RENAME) && Py.truthy_opt target_value then
       let target_value := str_of target_value in
       match rename_check target_value with
       | Some _ => return_ false
       | None =>
           (* Check if name is already taken *)
           if nonempty_opt current_channels then
             if name_taken target_value (list_of current_channels)
             then return_ false else pass
           else
             try_ (
               l <- start_listing cl true ;;
               existing <- request_page true (first l) ;;
               if name_taken target_value (channels existing)
               then return_ false else pass)
               (except_SlackApiError (fun _ _ _ => pass))
       end
     else pass) >>
    (fun st => prompt (stdin st) st)).

(** ** The execution orchestrator *)

(** The local variables of [execute_channel_actions]; the [finally] block
    prints the three counters and their sum, and returns
    [successful_channel_ids]. *)
Record ExecutionSummary := {
  successful : nat;
  failed : nat;
  skipped : nat;
  last_action : option (ChannelRecord * string * option string);
  successful_channel_ids : list string
}.

Definition no_actions : ExecutionSummary :=
  {| successful := 0; failed := 0; skipped := 0;
     last_action := None; successful_channel_ids := [] |}.

(** [skipped += 1], [failed += 1], [successful += 1] *)
Definition skip (acc : ExecutionSummary) : ExecutionSummary :=
  {| successful := successful acc; failed := failed acc; skipped := skipped acc + 1;
     last_action := last_action acc;
     successful_channel_ids := successful_channel_ids acc |}.

Definition fail (acc : ExecutionSummary) : ExecutionSummary :=
  {| successful := successful acc; failed := failed acc + 1; skipped := skipped acc;
     last_action := last_action acc;
     successful_channel_ids := successful_channel_ids acc |}.

Definition succeed (acc : ExecutionSummary) : ExecutionSummary :=
  {| successful := successful acc + 1; failed := failed acc; skipped := skipped acc;
     last_action := last_action acc;
     successful_channel_ids := successful_channel_ids acc |}.

(** The branch of a successful result: the counter, [last_action] and the
    list of successful channels. *)
Definition record_success (ch : ChannelRecord) (action : string)
  (acc : ExecutionSummary) : ExecutionSummary :=
  {| successful := successful acc + 1; failed := failed acc; skipped := skipped acc;
     last_action := Some (ch, action, target_value ch);
     successful_channel_ids := (successful_channel_ids acc ++ [channel_id ch])%list |}.

(** The advisory of the summary: the channel it names, when the last
    successful action was an archive. *)
Definition undo_note (acc : ExecutionSummary) : option string :=
  match last_action acc with
  | Some (ch, action, _) =>
      if String.eqb action (value ARCHIVE) then Some (name ch) else None
  | None => None
  end.

(** How the body of the [for] loop leaves the loop's current turn. *)
Inductive jump :=
| continue_ (acc : ExecutionSummary)
| break_ (acc : ExecutionSummary).

(** The body of [for channel in channels]; [acc] are the local variables
    when the turn starts, and the value is what they are when it ends. *)
Definition process_channel (dry_run : bool) (current_channels : list Conv.t)
  (ch : ChannelRecord) (acc : ExecutionSummary) : stmt jump ExecutionSummary :=
  (* Skip invalid channels *)
  (if negb (Py.truthy (channel_id ch)) || negb (Py.truthy (name ch)) then
     return_ (continue_ (skip acc))
   else pass) >>
  action <-
    match action ch with
    | Some a => ret (Py.lower a)
    | None => raise (OtherError "'NoneType' object has no attribute 'lower'")
    end ;;
  (* Skip if action is "keep" or invalid *)
  (if negb (Py.truthy action) || String.eqb action (value KEEP) then
     return_ (continue_ acc)
   else pass) >>
  (* Validate action is supported *)
  (if negb (in_values action) then return_ (continue_ (skip acc)) else pass) >>
  (* Get user approval *)
  try_ (
    approved <- get_user_approval ch action (target_value ch) (Some current_channels) ;;
    if negb approved then return_ (continue_ (skip acc)) else pass)
    (fun e =>
      match e with
      | KeyboardInterrupt _ => Some (return_ (break_ acc))
      | e => except_Exception (fun _ => return_ (continue_ (fail acc))) e
      end) >>
  (* Execute the approved action *)
  (if dry_run then return_ (continue_ (succeed acc)) else pass) >>
  (* Verify channel still exists and is in expected state before executing *)
  acc <-
    try_ (
      channel_info <- get_channel_info (channel_id ch) ;;
      match channel_info with
      | None => return_ (continue_ (fail acc))
      | Some channel_info =>
          if Conv.is_archived channel_info then return_ (continue_ (fail acc))
          else if negb (String.eqb (Conv.name channel_info) (name ch)) then
            return_ (continue_ (fail acc))
          else
            (* Now execute the action *)
            result <- execute_action cl (channel_id ch) (name ch) action
                        (target_value ch) None ;;
            match result with
            | None =>
                raise (OtherError "'NoneType' object has no attribute 'success'")
            | Some result =>
                if success result then ret (record_success ch action acc)
                else ret (fail acc)
            end
      end)
      (except_Exception (fun _ => ret (fail acc))) ;;
  (* Respect rate limits *)
  sleep 1 >> ret acc.

(** How the [for] loop ends: the batch is exhausted, a [break], or an
    exception that leaves the loop. *)
Inductive loop_end :=
| Exhausted
| Broke
| Escaped (e : exn).

(** [for channel in channels: ...].  The counters are only changed right
    before a [continue] or at the end of a turn, so an exception that
    leaves the body leaves them as they were when the turn started. *)
Fixpoint for_each_channel (dry_run : bool) (current_channels : list Conv.t)
  (batch : list ChannelRecord) (acc : ExecutionSummary) (st : state)
  : loop_end * ExecutionSummary * state :=
  match batch with
  | [] => (Exhausted, acc, st)
  | ch :: batch' =>
      match process_channel dry_run current_channels ch acc st with
      | (Normal acc', st') => for_each_channel dry_run current_channels batch' acc' st'
      | (Returned (continue_ acc'), st') =>
          for_each_channel dry_run current_channels batch' acc' st'
      | (Returned (break_ acc'), st') => (Broke, acc', st')
      | (Raised e, st') => (Escaped e, acc, st')
      end
  end.

(** [execute_channel_actions]: the [try] with its two handlers, which only
    print, and the [finally] block, which reports the local variables as
    they are and returns. *)
Definition execute_channel_actions (batch : list ChannelRecord) (dry_run : bool)
  (st : state) : ExecutionSummary * state :=
  let batch := sorted action_priority batch in
  match @get_all_channels unit st with
  | (Normal current_channels, st') =>
      let '(_, acc, st'') :=
        for_each_channel dry_run current_channels batch no_actions st' in
      (acc, st'')
  | (_, st') => (no_actions, st')
  end.

End Manager.

(** * Vocabulary of the properties *)

(** [has_action a ch]: the action of [ch] is [a], whatever its case. *)
Definition has_action (a : ChannelAction) (ch : ChannelRecord) : Prop :=
  exists s, action ch = Some s /\ Py.lower s = value a.

(** The record has its identity field and its display name. *)
Definition valid (ch : ChannelRecord) : bool :=
  Py.truthy (channel_id ch) && Py.truthy (name ch).

(** The number of records without identity field or display name. *)
Definition invalid_count (batch : list ChannelRecord) : nat :=
  List.length (filter (fun ch => negb (valid ch)) batch).

(** The calls that change the remote workspace: everything but the listing
    and the lookup of a channel. *)
Definition mutating (c : call) : bool :=
  match c with
  | conversations_list _ | conversations_info _ => false
  | _ => true
  end.

Definition mutation (e : event) : bool :=
  match e with Call c => mutating c | _ => false end.

(** The operator approves: a line that is [y] once lowercased. *)
Definition approval (e : event) : bool :=
  match e with
  | Input (Some line) => String.eqb (Py.lower line) "y"
  | _ => false
  end.

Definition approvals (evs : list event) : nat := List.length (filter approval evs).

Definition harmless (e : event) : Prop := mutation e = false.

(** The last thing that happened is the operator's [q]. *)
Definition quit_last (evs : list event) : Prop :=
  exists h line, evs = (h ++ [Input (Some line)])%list /\ Py.lower line = "q".

(** [since st st' evs]: [evs] is what happened between [st] and [st']. *)
Definition since (st st' : state) (evs : list event) : Prop :=
  past st' = (past st ++ evs)%list.

(** The name checks of the gate reject the target of a rename (the guard
    [action == RENAME and target_value] of [get_user_approval], then
    [rename_check]). *)
Definition gate_rejects_name (target_value : option string) : bool :=
  Py.truthy_opt target_value
  && match rename_check (str_of target_value) with Some _ => true | None => false end.

(** The handler rejects the target of a rename before any remote call (the
    test [not target_value] of [execute_action], then [rename_validation]). *)
Definition handler_rejects_name (old_name : string) (target_value : option string)
  : bool :=
  negb (Py.truthy_opt target_value)
  || match rename_validation old_name (str_of target_value) with
     | Some _ => true
     | None => false
     end.

(** ** Clients

    The client honours the contract of the SDK: a call that returns has
    succeeded; a refusal of the service arrives as a [SlackApiError]. *)
Definition sdk_contract (cl : client) : Prop :=
  forall h c r, answer cl h c = Returns r -> ok r = true.

(** The service lets no mutating call through: each one is refused or
    crashes. *)
Definition refuses_mutations (cl : client) : Prop :=
  forall h c r, mutating c = true -> answer cl h c <> Returns r.

(** A failed result when no mutating call got through. *)
Definition honest (cl : client) (r : ChannelActionResult) : Prop :=
  refuses_mutations cl -> success r = false.

(** The value a method returns is a result object, when the client honours
    the contract of the SDK. *)
Definition is_result (cl : client) (res : option ChannelActionResult) : Prop :=
  sdk_contract cl -> exists r, res = Some r /\ honest cl r.

(** How a method of the handler ends: with a value, or with an unexpected
    failure that it lets through. *)
Definition result_or_failure {R} (cl : client)
  (o : outcome R (option ChannelActionResult)) : Prop :=
  (exists res, o = Normal res /\ is_result cl res)
  \/ (exists text, o = Raised (OtherError text)).

(** The first two parts of [update_description] went through: the channel is
    live and the caller is in it ([was_member]) or has tried to join. *)
Definition reaches_update (cl : client) (channel_id channel_name : string)
  (st : state) (was_member : bool) (st2 : state) : Prop :=
  exists st1,
    update_description_membership cl channel_id channel_name st = (Normal was_member, st1)
    /\ update_description_join cl channel_id channel_name was_member st1 = (Normal tt, st2).

(** The number of [setPurpose] calls in a history. *)
Definition set_purpose_calls (h : history) : nat :=
  List.length
    (filter (fun e => match e with
                      | Call (conversations_setPurpose _ _) => true
                      | _ => false
                      end) h).

Definition rate_limit_message (channel_name : string) : string :=
  "Failed to update description for #" ++ channel_name
  ++ ": Rate limit exceeded after 3 retries".

(** The message of the failure into which [update_description] turns an
    unexpected exception with the text [text]. *)
Definition unexpected_message (channel_name text : string) : string :=
  "Unexpected error updating description for #" ++ channel_name ++ ": " ++ text.

(** The pause that follows a rate limit, when it can be computed: 5 seconds
    when the response of the error has no [Retry-After] entry, and the
    seconds of an entry that [int] converts (no time when they are not
    positive). *)
Definition pause_of (retry_after : option retry_after_value) : option nat :=
  match retry_after with
  | None => Some 5
  | Some (Seconds n) => Some (Z.to_nat n)
  | Some (Unreadable _) => None
  end.

Definition is_leave (c : call) : bool :=
  match c with conversations_leave _ => true | _ => false end.

(** [cl'] answers every call as [cl] does, except perhaps the [leave]
    calls. *)
Definition same_but_leave (cl cl' : client) : Prop :=
  forall h c, is_leave c = false -> answer cl' h c = answer cl h c.

(** The [leave] call returns or is refused with a structured error. *)
Definition leave_answers (channel_id : string) (cl : client) : Prop :=
  forall h t, answer cl h (conversations_leave channel_id) <> Crashes t.

(** ** A sample workspace, batch and terminal *)

Definition conv (id name : string) (is_member : bool) : Conv.t :=
  {| Conv.id := id; Conv.name := name; Conv.is_archived := false;
     Conv.is_general := false; Conv.is_member := is_member; Conv.num_members := 3 |}.

Definition directory : list Conv.t :=
  [conv "C1" "proj-x" false; conv "C2" "old-team" false; conv "C3" "random" false;
   conv "C4" "lobby" false; conv "C5" "help" false].

Definition succeeded (c : Conv.t) : response :=
  {| ok := true; error := None; channel := c |}.

Definition one_page (l : list Conv.t) : listing :=
  {| first := PageReturns {| page_ok := true; page_error := None; channels := l;
                             page_text := "{'ok': True}" |};
     following := [] |}.

(** A workspace with the channels of [directory], none of which the caller
    is a member of; [setPurpose] and [leave] are answered as given, every
    other call succeeds. *)
Definition workspace (set_purpose_reply leave_reply : reply) : client :=
  {| answer := fun _ c =>
       match c with
       | conversations_info id =>
           match find (fun ch => String.eqb (Conv.id ch) id) directory with
           | Some ch => Returns (succeeded ch)
           | None => Fails "channel_not_found" None "channel_not_found"
           end
       | conversations_rename id new_name => Returns (succeeded (conv id new_name false))
       | conversations_setPurpose _ _ => set_purpose_reply
       | conversations_leave _ => leave_reply
       | _ => Returns (succeeded (conv "C1" "proj-x" false))
       end;
     listing_of := fun _ _ => one_page directory |}.

(** The answer of a call that went well. *)
Definition done : reply := Returns (succeeded (conv "C1" "proj-x" false)).

Definition calm : client := workspace done done.

Definition throttled : client :=
  workspace (Fails "ratelimited" (Some (Seconds 2)) "ratelimited") done.

(** A fresh run, with the lines the operator will type. *)
Definition terminal (lines : list string) : state := {| past := []; stdin := lines |}.

Definition row (id name action : string) (target_value : option string) : ChannelRecord :=
  {| channel_id := id; name := name; action := Some action;
     target_value := target_value; member_count := Some 3%Z |}.

Definition five_channels : list ChannelRecord :=
  [row "C1" "proj-x" "rename" (Some "proj-y");
   row "C2" "old-team" "archive" None;
   row "C3" "random" "update_description" (Some "Chit-chat");
   row "C4" "lobby" "archive" None;
   row "C5" "help" "rename" (Some "helpdesk")].

(** ** Lowercased batches

    The record with its action lowercased. *)
Definition lower_action (ch : ChannelRecord) : ChannelRecord :=
  {| channel_id := channel_id ch; name := name ch;
     action := option_map Py.lower (action ch);
     target_value := target_value ch; member_count := member_count ch |}.

(** The summary of the run of a lowercased batch: the record kept in
    [last_action] is the lowercased one. *)
Definition lower_summary (acc : ExecutionSummary) : ExecutionSummary :=
  {| successful := successful acc; failed := failed acc; skipped := skipped acc;
     last_action :=
       match last_action acc with
       | Some (ch, action, target) => Some (lower_action ch, action, target)
       | None => None
       end;
     successful_channel_ids := successful_channel_ids acc |}.

Definition lower_jump (j : jump) : jump :=
  match j with
  | continue_ acc => continue_ (lower_summary acc)
  | break_ acc => break_ (lower_summary acc)
  end.

Definition lower_turn (res : outcome jump ExecutionSummary * state)
  : outcome jump ExecutionSummary * state :=
  match res with
  | (Normal acc, st) => (Normal (lower_summary acc), st)
  | (Returned j, st) => (Returned (lower_jump j), st)
  | (Raised e, st) => (Raised e, st)
  end.

(** A client that answers [conversations_archive] without raising although
    the call did not succeed. *)
Definition unvalidated : client :=
  {| answer := fun h c =>
       match c with
       | conversations_archive _ =>
           Returns {| ok := false; error := Some "restricted_action";
                      channel := conv "C2" "old-team" false |}
       | _ => answer calm h c
       end;
     listing_of := listing_of calm |}.

(** * Further vocabulary *)

(** A character that no channel name may hold: an uppercase letter, a space
    or a period. *)
Definition forbidden_char (c : ascii) : bool :=
  Py.ch_isupper c || Ascii.eqb c " " || Ascii.eqb c ".".

(** The description is missing or holds nothing but whitespace. *)
Definition blank (target_value : option string) : bool :=
  match target_value with
  | None => true
  | Some d => Py.all Py.ch_isspace d
  end.

(** The status lookup of [archive_channel] returned an active channel that is
    not the general one. *)
Definition archivable (cl : client) (channel_id : string) (h : history) : bool :=
  match answer cl h (conversations_info channel_id) with
  | Returns r => negb (Conv.is_archived (channel r)) && negb (Conv.is_general (channel r))
  | _ => false
  end.

(** What [execute_action] makes of the answer to the archive call;
    [redirect] is the redirect target, when one was used. *)
Definition archive_result (channel_name : string) (redirect : option string)
  (a : reply) : option ChannelActionResult :=
  match a with
  | Returns r =>
      if ok r then
        result true
          (match redirect with
           | Some target =>
               ("Successfully archived #" ++ channel_name)
               ++ " (with redirect to #" ++ target ++ ")"
           | None => "Successfully archived #" ++ channel_name
           end)
      else None
  | Fails code _ _ => result false (archive_error_message channel_name code)
  | Crashes text =>
      result false ("Unexpected error for " ++ channel_name ++ ": " ++ text)
  end.

(** The call did not fail unexpectedly. *)
Definition answered (a : reply) : bool :=
  match a with Crashes _ => false | _ => true end.

(** What [execute_action] makes of the answer to the rename call. *)
Definition rename_result (old_name new_name : string) (a : reply)
  : option ChannelActionResult :=
  match a with
  | Returns r =>
      if ok r then
        if String.eqb (Conv.name (channel r)) new_name then
          result true ("Successfully renamed " ++ old_name ++ " to " ++ new_name)
        else
          result true ("Successfully renamed " ++ old_name ++ " to "
            ++ Conv.name (channel r) ++ " (name was modified to meet Slack's requirements)")
      else None
  | Fails code _ _ => result false (rename_error_message old_name new_name code)
  | Crashes text =>
      result false ("Unexpected error for " ++ old_name ++ ": " ++ text)
  end.

(** The number of pauses in a history. *)
Definition pauses (h : history) : nat :=
  List.length (filter (fun e => match e with Sleep _ => true | _ => false end) h).

(** The event is not a line read from the terminal. *)
Definition not_input (e : event) : bool :=
  match e with Input _ => false | _ => true end.

(** The event belongs to the retry loop: a [setPurpose] call or a pause. *)
Definition retry_event (e : event) : bool :=
  match e with
  | Call (conversations_setPurpose _ _) | Sleep _ => true
  | _ => false
  end.

(** The join of [update_description] ends the update: the call returned
    without success, or was refused with one of the three codes that the
    handler does not tolerate. *)
Definition join_refused (a : reply) : bool :=
  match a with
  | Returns r => negb (ok r)
  | Fails code _ _ =>
      existsb (String.eqb code)
        ["method_not_supported_for_channel_type"; "channel_not_found"; "missing_scope"]
  | Crashes _ => false
  end.

(** A page of a listing that came back with [ok], and the channels of a
    page. *)
Definition good_page (p : page_reply) : bool :=
  match p with PageReturns p => page_ok p | _ => false end.

Definition channels_of (p : page_reply) : list Conv.t :=
  match p with PageReturns p => channels p | _ => [] end.

(** What the requests of the pages after the first leave in the history: a
    pause of one second, then the request, for each of them. *)
Fixpoint paging (following : nat) : list event :=
  match following with
  | 0 => []
  | S n => Sleep 1 :: Call (conversations_list true) :: paging n
  end.

(** The error of the snapshot accessor for an error code of the service. *)
Definition scope_or (code : string) (otherwise : exn) : exn :=
  if existsb (String.eqb code) ["missing_scope"; "invalid_auth"] then
    ValueError ("Missing required scopes or invalid authentication. "
                ++ "Ensure your token has channels:read and groups:read scopes.")
  else otherwise.

(** The exception that a page which is not good sets off in the snapshot
    accessor.  For a page that came back without [ok] it is the error that
    the accessor raises itself, with the page as its response, unless the
    code of the page ([unknown_error] when it has none) is one of the
    two. *)
Definition listing_failure (p : page_reply) : exn :=
  match p with
  | PageReturns p =>
      let code := match page_error p with Some code => code | None => "unknown_error" end in
      scope_or code (SlackPageError p)
  | PageFails code retry_after text =>
      scope_or code (SlackApiError code retry_after text)
  | PageCrashes text => OtherError text
  end.

(** A line that ends the prompt, the lines as events of the history, and the
    way in which a deciding line ends the gate. *)
Definition decisive (line : string) : bool :=
  existsb (String.eqb (Py.lower line)) ["q"; "y"; "n"].

Definition typed (lines : list string) : list event :=
  map (fun line => Input (Some line)) lines.

Definition decision {A} (line : string) : outcome bool A :=
  if String.eqb (Py.lower line) "q"
  then Raised (KeyboardInterrupt "User requested to quit")
  else Returned (String.eqb (Py.lower line) "y").

(** [offline st st']: between [st] and [st'] the terminal was left alone;
    what happened was calls and pauses, and no line was read. *)
Definition offline (st st' : state) : Prop :=
  stdin st' = stdin st
  /\ exists evs, since st st' evs /\ forallb not_input evs = true.

(** The records that a run counts: those that end as successful, failed or
    skipped. *)
Definition processed (acc : ExecutionSummary) : nat :=
  successful acc + failed acc + skipped acc.

(** [subsequence l l']: [l] is [l'] without some of its elements. *)
Inductive subsequence {A : Type} : list A -> list A -> Prop :=
| subsequence_nil : subsequence [] []
| subsequence_skip x l l' : subsequence l l' -> subsequence l (x :: l')
| subsequence_take x l l' : subsequence l l' -> subsequence (x :: l) (x :: l').

(** A record that the loop passes over without counting it: it has its
    identity field and its name, and its action is empty or [keep]. *)
Definition inert (ch : ChannelRecord) : bool :=
  valid ch
  && match action ch with
     | Some a => negb (Py.truthy (Py.lower a)) || String.eqb (Py.lower a) (value KEEP)
     | None => false
     end.

(** A record that the loop skips before the gate: it lacks its identity
    field or its name, or its action is not one of [ChannelAction]. *)
Definition unusable (ch : ChannelRecord) : bool :=
  negb (valid ch)
  || match action ch with
     | Some a => Py.truthy (Py.lower a) && negb (in_values (Py.lower a))
     | None => false
     end.

(** The channel of the record is not what the record says any more: the
    lookup is refused, or the channel is archived or has another name. *)
Definition stale (cl : client) (ch : ChannelRecord) (h : history) : bool :=
  match answer cl h (conversations_info (channel_id ch)) with
  | Returns r =>
      Conv.is_archived (channel r)
      || negb (String.eqb (Conv.name (channel r)) (name ch))
  | Fails _ _ _ => true
  | Crashes _ => false
  end.

(** * Properties *)

(** ** Running statements *)

Ltac run_step :=
  cbv beta iota zeta delta
    [bind try_ def ret return_ raise pass request sleep request_page start_listing
     except_SlackApiError except_Exception is_Exception result negb andb orb
     backoff error_code];
  cbn [fst snd].

Ltac ask_client :=
  match goal with
  | |- context [answer ?cl ?h ?c] =>
      let E := fresh "Ans" in destruct (answer cl h c) eqn:E
  end.

Ltac branch :=
  match goal with
  | |- context [if ?b then _ else _] =>
      let E := fresh "Cond" in destruct b eqn:E
  | |- context [match ?o with _ => _ end] =>
      lazymatch type of o with
      | option _ => let E := fresh "Opt" in destruct o eqn:E
      | list _ => let E := fresh "Lst" in destruct o eqn:E
      | retry_after_value => let E := fresh "Val" in destruct o eqn:E
      end
  end.

(** ** The order of processing *)

Section SortedFacts.
Variable A : Type.
Variable key : A -> nat.

Lemma insert_perm x l : Permutation (x :: l) (insert key x l).
Proof.
  induction l as [|y l IH]; cbn; [reflexivity|].
  destruct (Nat.leb (key x) (key y)); [reflexivity|].
  rewrite perm_swap. now constructor.
Qed.

Lemma sorted_perm l : Permutation l (sorted key l).
Proof.
  induction l as [|x l IH]; cbn; [constructor|].
  rewrite <- insert_perm. now constructor.
Qed.

Lemma with_key_insert k x l :
  with_key key k (insert key x l) =
  if Nat.eqb (key x) k then x :: with_key key k l else with_key key k l.
Proof.
  unfold with_key.
  induction l as [|y l IH]; cbn; [reflexivity|].
  destruct (Nat.leb (key x) (key y)) eqn:Hxy; cbn; [reflexivity|].
  rewrite IH.
  destruct (Nat.eqb (key y) k) eqn:Hy, (Nat.eqb (key x) k) eqn:Hx; try reflexivity.
  apply Nat.eqb_eq in Hy, Hx. apply Nat.leb_gt in Hxy. lia.
Qed.

(** Stability: the elements of one key keep their order. *)
Lemma sorted_stable k l : with_key key k (sorted key l) = with_key key k l.
Proof.
  induction l as [|x l IH]; [reflexivity|].
  cbn [sorted]. rewrite with_key_insert, IH. reflexivity.
Qed.

Lemma ordered_cons x l :
  ordered key (x :: l) <-> (Forall (fun y => key x <= key y) l /\ ordered key l).
Proof.
  unfold ordered. split.
  - intros H. split.
    + apply Forall_forall. intros y Hy.
      apply in_split in Hy as (l2 & l3 & ->).
      apply (H [] x l2 y l3). reflexivity.
    + intros l1 a l2 b l3 ->. apply (H (x :: l1) a l2 b l3). reflexivity.
  - intros [Hall H] l1 a l2 b l3 E.
    destruct l1 as [|z l1]; cbn in E; injection E as <- ->.
    + rewrite Forall_forall in Hall. apply Hall.
      apply in_or_app. right. now left.
    + eapply H. reflexivity.
Qed.

Lemma ordered_nil : ordered key [].
Proof. intros l1 a l2 b l3 E. destruct l1; discriminate. Qed.

Lemma insert_ordered x l : ordered key l -> ordered key (insert key x l).
Proof.
  induction l as [|y l IH]; intros Hl; cbn.
  - apply ordered_cons. split; [constructor|apply ordered_nil].
  - destruct (Nat.leb (key x) (key y)) eqn:Hxy.
    + apply Nat.leb_le in Hxy. apply ordered_cons. split; [|exact Hl].
      apply ordered_cons in Hl as [Hall _].
      constructor; [exact Hxy|].
      eapply Forall_impl; [|exact Hall]. cbn. intros; lia.
    + apply Nat.leb_gt in Hxy.
      apply ordered_cons in Hl as [Hall Hl].
      apply ordered_cons. split; [|auto].
      eapply Permutation_Forall; [apply insert_perm|].
      constructor; [lia|exact Hall].
Qed.

Lemma sorted_ordered l : ordered key (sorted key l).
Proof.
  induction l as [|x l IH]; cbn.
  - apply ordered_nil.
  - now apply insert_ordered.
Qed.

End SortedFacts.

Lemma nth_error_two_split {A} (l : list A) i j x y :
  nth_error l i = Some x -> nth_error l j = Some y -> i < j ->
  exists l1 l2 l3, l = (l1 ++ x :: l2 ++ y :: l3)%list.
Proof.
  intros Hi Hj Hlt.
  apply nth_error_split in Hi as (l1 & r & -> & Hlen).
  rewrite nth_error_app2 in Hj by lia.
  destruct (j - List.length l1) as [|k] eqn:Hk; [lia|].
  cbn in Hj. apply nth_error_split in Hj as (l2 & l3 & -> & _).
  now exists l1, l2, l3.
Qed.

Lemma lower_truthy s : Py.truthy (Py.lower s) = Py.truthy s.
Proof. destruct s; reflexivity. Qed.

Lemma priority_cases ch :
  (action_priority ch = 0 <-> has_action RENAME ch)
  /\ (action_priority ch = 1 <-> has_action ARCHIVE ch)
  /\ (action_priority ch = 2 <-> has_action KEEP ch)
  /\ action_priority ch <= 3.
Proof.
  unfold action_priority, has_action.
  destruct (action ch) as [a|].
  2:{ repeat split; try discriminate; try lia; intros (s & E & _); discriminate. }
  destruct (Py.truthy a) eqn:Ht; cbn [negb].
  2:{ assert (Hl : Py.lower a = "") by (destruct a; [reflexivity|discriminate]).
      repeat split; try discriminate; try lia;
        intros (s & [= <-] & E); rewrite Hl in E; discriminate. }
  destruct (String.eqb_spec (Py.lower a) (value KEEP)) as [E|NK].
  { repeat split; try discriminate; try lia; try (now exists a);
      intros (s & [= <-] & E'); rewrite E in E'; discriminate. }
  destruct (String.eqb_spec (Py.lower a) (value RENAME)) as [E|NR].
  { repeat split; try discriminate; try lia; try (now exists a);
      intros (s & [= <-] & E'); rewrite E in E'; discriminate. }
  destruct (String.eqb_spec (Py.lower a) (value ARCHIVE)) as [E|NA].
  { repeat split; try discriminate; try lia; try (now exists a);
      intros (s & [= <-] & E'); rewrite E in E'; discriminate. }
  repeat split; try discriminate; try lia;
    intros (s & [= <-] & E'); contradiction.
Qed.


(** ** The name checks of a rename *)

Lemma name_char_plain c :
  name_char c = true ->
  Py.ch_isupper c || Py.ch_istitle c = false
  /\ Ascii.eqb " " c = false /\ Ascii.eqb "." c = false.
Proof.
  destruct c as [[] [] [] [] [] [] [] []]; vm_compute;
    intros H; try discriminate H; repeat split.
Qed.

Lemma all_name_char_plain s :
  Py.all name_char s = true ->
  Py.any (fun c => Py.ch_isupper c || Py.ch_istitle c) s = false
  /\ Py.contains " " s = false /\ Py.contains "." s = false.
Proof.
  unfold Py.contains.
  induction s as [|c s IH]; cbn [Py.all Py.any]; [now repeat split|].
  intros H. apply andb_true_iff in H as [Hc Hs].
  destruct (name_char_plain _ Hc) as (-> & -> & ->).
  now apply IH.
Qed.

Lemma any_truthy p s : Py.any p s = true -> Py.truthy s = true.
Proof. destruct s; [discriminate|reflexivity]. Qed.

Lemma rename_check_of_validation old_name s :
  Py.truthy s = true ->
  rename_check s = None -> Py.any Py.ch_islower s = true /\ rename_validation old_name s = None.
Proof.
  unfold rename_check, rename_validation. intros ->. cbn [negb].
  destruct (Nat.ltb 80 (String.length s)); [discriminate|].
  destruct (Py.islower s) eqn:Hlow; [|discriminate].
  destruct (Py.contains " " s); [discriminate|].
  destruct (Py.contains "." s); [discriminate|]. cbn [negb orb].
  destruct (Py.all name_char s); [|discriminate]. intros _.
  unfold Py.islower in Hlow. apply andb_true_iff in Hlow as [_ ->]. now split.
Qed.

Lemma rename_validation_of_check old_name s :
  Py.any Py.ch_islower s = true ->
  rename_validation old_name s = None -> rename_check s = None.
Proof.
  unfold rename_check, rename_validation, result. intros Hlow.
  rewrite (any_truthy _ _ Hlow). cbn [negb].
  destruct (Nat.ltb 80 (String.length s)); [discriminate|].
  destruct (Py.all name_char s) eqn:Hall; [|discriminate].
  destruct (all_name_char_plain _ Hall) as (Hup & Hsp & Hdot).
  unfold Py.islower. rewrite Hup, Hsp, Hdot, Hlow. reflexivity.
Qed.

Lemma rename_validation_fails old_name new_name r :
  rename_validation old_name new_name = Some r -> success r = false.
Proof.
  unfold rename_validation, result.
  repeat branch; intros [= <-]; reflexivity.
Qed.

(** What the two predicates of the name checks mean for the functions: a
    rename that the handler rejects ends in a failure without any remote
    call, one that it accepts is sent to the service, and a rename that the
    gate rejects is refused without a prompt. *)
Lemma rename_rejected_before_any_call (cl : client) {R} channel_id channel_name
  target_value current st :
  handler_rejects_name channel_name target_value = true ->
  exists r,
    @execute_action cl R channel_id channel_name (value RENAME) target_value current st
    = (Normal (Some r), st) /\ success r = false.
Proof.
  unfold handler_rejects_name, execute_action, rename_channel. cbn [value String.eqb Ascii.eqb Bool.eqb].
  run_step. destruct (Py.truthy_opt target_value); run_step.
  2:{ intros _. eexists. split; reflexivity. }
  pose proof (rename_validation_fails channel_name (str_of target_value)) as Hfails.
  destruct (rename_validation channel_name (str_of target_value)) as [failure|];
    [|discriminate].
  intros _. run_step. exists failure. split; [reflexivity|]. now apply Hfails.
Qed.

Lemma rename_accepted_is_sent (cl : client) {R} channel_id channel_name
  target_value current st :
  handler_rejects_name channel_name target_value = false ->
  past (snd (@execute_action cl R channel_id channel_name (value RENAME) target_value
               current st))
  = (past st ++ [Call (conversations_rename channel_id (str_of target_value))])%list.
Proof.
  unfold handler_rejects_name, execute_action, rename_channel. cbn [value String.eqb Ascii.eqb Bool.eqb].
  run_step. destruct (Py.truthy_opt target_value); run_step; [|discriminate].
  destruct (rename_validation channel_name (str_of target_value)); [discriminate|].
  intros _. run_step.
  repeat (first [ask_client | branch]; run_step); reflexivity.
Qed.

Lemma rename_rejected_without_prompt (cl : client) {R} ch target_value current st :
  gate_rejects_name target_value = true ->
  let (o, st') := @get_user_approval cl R ch (value RENAME) target_value current st in
  stdin st' = stdin st
  /\ (o = Normal false \/ exists text, o = Raised (OtherError text)).
Proof.
  unfold gate_rejects_name, get_user_approval, get_channel_info.
  cbn [value String.eqb Ascii.eqb Bool.eqb]. run_step.
  destruct (Py.truthy_opt target_value); [|discriminate].
  destruct (rename_check (str_of target_value)); [|discriminate]. intros _.
  ask_client; run_step; split; try reflexivity; eauto.
Qed.

(** C2, as amended.  For a rename with a non-empty target, every name that
    the local validation of the handler rejects is rejected by the name checks
    of the gate, and a name with at least one lowercase letter that the gate
    rejects is rejected by the handler. *)
Theorem gate_and_handler_name_checks (old_name : string) (target_value : option string)
  (Hnonempty : Py.truthy_opt target_value = true) :
  (handler_rejects_name old_name target_value = true ->
   gate_rejects_name target_value = true)
  /\ (Py.any Py.ch_islower (str_of target_value) = true ->
      gate_rejects_name target_value = true ->
      handler_rejects_name old_name target_value = true).
Proof.
  unfold handler_rejects_name, gate_rejects_name. rewrite Hnonempty. cbn [negb orb andb].
  assert (Ht : Py.truthy (str_of target_value) = true)
    by (destruct target_value; [exact Hnonempty|discriminate]).
  split.
  - destruct (rename_check (str_of target_value)) eqn:Hc; [reflexivity|].
    destruct (rename_check_of_validation old_name _ Ht Hc) as [_ ->]. discriminate.
  - intros Hlow.
    destruct (rename_validation old_name (str_of target_value)) eqn:Hv; [reflexivity|].
    rewrite (rename_validation_of_check _ _ Hlow Hv). discriminate.
Qed.

Lemma gate_and_handler_name_checks_witness :
  (handler_rejects_name "proj-x" (Some "Proj Y") = true ->
   gate_rejects_name (Some "Proj Y") = true)
  /\ (Py.any Py.ch_islower "Proj Y" = true ->
      gate_rejects_name (Some "Proj Y") = true ->
      handler_rejects_name "proj-x" (Some "Proj Y") = true).
Proof. apply (gate_and_handler_name_checks "proj-x" (Some "Proj Y")). reflexivity. Defined.

(** C2 fails as stated: for a rename without a target name the gate runs no
    name check and goes on to the prompt, while the handler rejects it. *)
Lemma gate_skips_empty_target_counterexample :
  gate_rejects_name (Some "") = false /\ handler_rejects_name "proj-x" (Some "") = true.
Proof. split; reflexivity. Qed.

(** The test [target_value.islower()] of the gate also rejects the names
    without any letter, which the handler accepts. *)
Lemma gate_rejects_letterless_name :
  rename_check "123" = Some "Error: Invalid channel name format!"
  /\ rename_validation "proj-x" "123" = None
  /\ gate_rejects_name (Some "123") = true
  /\ handler_rejects_name "proj-x" (Some "123") = false.
Proof. repeat split; reflexivity. Qed.

(** ** The handler *)

Section HandlerFacts.
Variable cl : client.

Lemma find_target_outcome {R} this rest target_channel st :
  match fst (@find_target R this rest target_channel st) with
  | Normal _ => True
  | Returned _ => False
  | Raised e => match e with SlackApiError _ _ _ | OtherError _ => True | _ => False end
  end.
Proof.
  revert this st. induction rest as [|next rest IH]; intros this st;
    cbn [find_target]; run_step; destruct this; run_step;
    try exact I; branch; run_step; try exact I.
  apply IH.
Qed.

Ltac by_contract :=
  match goal with
  | contract : sdk_contract cl, A : answer cl _ _ = Returns ?r, C : ok ?r = false |- _ =>
      rewrite (contract _ _ _ A) in C; discriminate C
  end.

Ltac use_find_target :=
  match goal with
  | |- context [find_target ?this ?rest ?name ?st] =>
      let H := fresh "Found" in
      pose proof (@find_target_outcome (option ChannelActionResult) this rest name st) as H;
      destruct (@find_target (option ChannelActionResult) this rest name st)
        as [[?|?|[]] ?]; cbn [fst] in H; try contradiction
  end.

Ltac is_honest :=
  let Href := fresh "Href" in
  intros Href;
  first [ reflexivity
        | exfalso;
          match goal with
          | A : answer cl ?h ?c = Returns ?r |- _ => exact (Href h c r eq_refl A)
          end ].

Ltac a_result :=
  let contract := fresh "contract" in
  intros contract;
  first [ by_contract | eexists; split; [reflexivity | is_honest] ].

Ltac settle :=
  first [ left; eexists; split; [reflexivity | a_result]
        | right; eexists; reflexivity ].

Lemma archive_channel_outcome {R} channel_id channel_name target_channel current st :
  result_or_failure cl
    (fst (@archive_channel cl R channel_id channel_name target_channel current st)).
Proof.
  unfold archive_channel, result_or_failure, is_result, honest.
  run_step.
  repeat (first [ask_client | branch | use_find_target]; run_step).
  all: settle.
Qed.

Lemma rename_channel_outcome {R} channel_id old_name new_name st :
  result_or_failure cl (fst (@rename_channel cl R channel_id old_name new_name st)).
Proof.
  unfold rename_channel, result_or_failure, is_result, honest.
  pose proof (rename_validation_fails old_name new_name) as Hlocal.
  destruct (rename_validation old_name new_name) as [failure|].
  { run_step. left. eexists. split; [reflexivity|]. intros _. eexists.
    split; [reflexivity|]. intros _. now apply Hlocal. }
  run_step.
  repeat (first [ask_client | branch]; run_step).
  all: settle.
Qed.

Lemma set_purpose_loop_outcome cid cname desc was_member remaining retry_count st :
  match fst (set_purpose_loop cl cid cname desc was_member remaining retry_count st) with
  | Normal n => sdk_contract cl -> n = retry_count + remaining
  | Returned r => exists r', r = Some r' /\ honest cl r'
  | Raised e => is_Exception e = true
  end.
Proof.
  revert retry_count st.
  induction remaining as [|remaining IH]; intros retry_count st.
  - cbn. lia.
  - cbn [set_purpose_loop]. unfold honest. run_step.
    repeat (first [ask_client | branch]; run_step).
    all: try (intros contract; by_contract); try reflexivity;
      try (eexists; split; [reflexivity | is_honest]).
    all: match goal with
         | |- context [set_purpose_loop _ _ _ _ _ ?n ?rc ?st'] =>
             specialize (IH rc st');
             destruct (set_purpose_loop cl cid cname desc was_member n rc st')
               as [[?|?|?] ?]; cbn [fst] in IH |- *
         end; try assumption.
    all: intros contract; specialize (IH contract); lia.
Qed.

Ltac use_loop :=
  match goal with
  | |- context [set_purpose_loop cl ?a ?b ?c ?d ?n ?rc ?st] =>
      let H := fresh "Loop" in
      pose proof (set_purpose_loop_outcome a b c d n rc st) as H;
      destruct (set_purpose_loop cl a b c d n rc st) as [[?|?|?] ?];
      cbn [fst] in H;
      [ | destruct H as (? & ? & ?); subst
        | match goal with e : exn |- _ => destruct e; try discriminate H end]
  end.

Lemma update_description_outcome {R} channel_id channel_name new_description st :
  exists res,
    fst (@update_description cl R channel_id channel_name new_description st)
    = Normal res /\ is_result cl res.
Proof.
  unfold update_description, update_description_membership, update_description_join,
    update_description_apply, update_description_failed, is_result.
  run_step.
  repeat (first [ask_client | branch | use_loop]; run_step).
  all: eexists; (split; [reflexivity|]); intros contract.
  all: try by_contract;
    try (eexists; split; [reflexivity | first [assumption | unfold honest; is_honest]]).
  all: match goal with
       | L : sdk_contract cl -> ?n = _, C : Nat.leb max_retries ?n = false |- _ =>
           rewrite (L contract) in C; discriminate C
       end.
Qed.

(** C3. Whatever the client does on each call (return, refuse with a
    structured error, fail unexpectedly), [execute_action] raises nothing;
    with a client that honours the contract of the SDK (a call that returns
    has succeeded) the value it returns is a result object, never [None],
    and that result is a failure when no mutating call got through, unless
    the action is [keep]. *)
Theorem execute_action_returns_an_outcome {R}
  (channel_id channel_name action : string) (target_value : option string)
  (current_channels : option (list Conv.t)) (st : state) :
  exists res,
    fst (@execute_action cl R channel_id channel_name action target_value
           current_channels st) = Normal res
    /\ (sdk_contract cl ->
        exists r,
          res = Some r
          /\ (refuses_mutations cl -> success r = true -> action = value KEEP)).
Proof.
  unfold execute_action.
  pose proof (@archive_channel_outcome (option ChannelActionResult) channel_id
                channel_name target_value current_channels st) as Harchive.
  pose proof (@rename_channel_outcome (option ChannelActionResult) channel_id
                channel_name (str_of target_value) st) as Hrename.
  pose proof (@update_description_outcome (option ChannelActionResult) channel_id
                channel_name (str_of target_value) st) as Hupdate.
  unfold result_or_failure, is_result, honest in *.
  destruct (String.eqb_spec action (value KEEP)) as [->|NK].
  { run_step. cbn. eexists. split; [reflexivity|]. intros _. eexists.
    split; reflexivity. }
  run_step.
  repeat (branch; run_step).
  all: try (eexists; split; [reflexivity|]; intros _; eexists;
            split; [reflexivity | intros _ [=]]).
  - destruct (archive_channel _ _ _ _ _ _) as [o st'], Harchive as [(r & E & H)|(t & E)];
      cbn [fst] in E; subst o; run_step;
      eexists; (split; [reflexivity|]); intros contract.
    + destruct (H contract) as (r' & -> & Hr). eexists. split; [reflexivity|].
      intros Href Hs. rewrite (Hr Href) in Hs. discriminate.
    + eexists. split; [reflexivity|]. intros _ [=].
  - destruct (rename_channel _ _ _ _ _) as [o st'], Hrename as [(r & E & H)|(t & E)];
      cbn [fst] in E; subst o; run_step;
      eexists; (split; [reflexivity|]); intros contract.
    + destruct (H contract) as (r' & -> & Hr). eexists. split; [reflexivity|].
      intros Href Hs. rewrite (Hr Href) in Hs. discriminate.
    + eexists. split; [reflexivity|]. intros _ [=].
  - destruct (update_description _ _ _ _ _) as [o st'], Hupdate as (r & E & H);
      cbn [fst] in E; subst o; run_step.
    eexists; split; [reflexivity|]. intros contract.
    destruct (H contract) as (r' & -> & Hr). eexists. split; [reflexivity|].
    intros Href Hs. rewrite (Hr Href) in Hs. discriminate.
Qed.
End HandlerFacts.

(** ** The retries of a description update *)

Lemma set_purpose_calls_log e st :
  set_purpose_calls (past (log e st))
  = set_purpose_calls (past st)
    + match e with Call (conversations_setPurpose _ _) => 1 | _ => 0 end.
Proof.
  unfold set_purpose_calls, log. cbn [past].
  rewrite filter_app, length_app. cbn [filter].
  destruct e as [[]| |]; reflexivity.
Qed.

Section RetryBound.
Variable cl : client.
Variables channel_id channel_name new_description : string.

Local Abbreviation set_purpose :=
  (Call (conversations_setPurpose channel_id new_description)).
Local Abbreviation leave := (Call (conversations_leave channel_id)).

(** The service answers every [setPurpose] with a rate limit, with whatever
    [Retry-After] entry in the response. *)
Variable retry_after : history -> option retry_after_value.
Variable text : history -> string.
Hypothesis rate_limited :
  forall h, answer cl h (conversations_setPurpose channel_id new_description)
            = Fails "ratelimited" (retry_after h) (text h).

Lemma reaches_update_calls st was_member st2 :
  reaches_update cl channel_id channel_name st was_member st2 ->
  set_purpose_calls (past st2) = set_purpose_calls (past st).
Proof.
  intros (st1 & Hm & Hj). revert Hm Hj.
  unfold update_description_membership, update_description_join,
    update_description_failed.
  run_step.
  repeat (first [ask_client | branch]; run_step).
  all: intros [= <- <-]; try discriminate; intros [= <-].
  all: unfold set_purpose_calls, log; cbn [past];
    rewrite ?filter_app, ?length_app; cbn; lia.
Qed.

(** A turn of the loop whose pause can be computed: the call, the pause,
    and the next turn. *)
Lemma rate_limited_turn was_member remaining retry_count st seconds :
  pause_of (retry_after (past st)) = Some seconds ->
  set_purpose_loop cl channel_id channel_name new_description was_member
    (S remaining) retry_count st
  = set_purpose_loop cl channel_id channel_name new_description was_member
      remaining (S retry_count) (log (Sleep seconds) (log set_purpose st)).
Proof.
  intros Hpause. cbn [set_purpose_loop]. run_step. rewrite rate_limited. run_step.
  cbn [String.eqb Ascii.eqb Bool.eqb]. run_step.
  destruct (retry_after (past st)) as [[n|t]|]; cbn [pause_of] in Hpause;
    run_step; try discriminate; injection Hpause as <-; reflexivity.
Qed.

(** The loop under a persistent rate limit: it runs out of turns, or the
    pause of a turn cannot be computed; it makes one call in each turn. *)
Lemma rate_limited_loop was_member remaining : forall retry_count st,
  let (o, st') :=
    set_purpose_loop cl channel_id channel_name new_description was_member
      remaining retry_count st in
  set_purpose_calls (past st') <= set_purpose_calls (past st) + remaining
  /\ (o = Normal (retry_count + remaining) \/ exists t, o = Raised (ValueError t)).
Proof.
  induction remaining as [|remaining IH]; intros retry_count st.
  - cbn. split; [lia|]. left. f_equal. lia.
  - destruct (pause_of (retry_after (past st))) as [seconds|] eqn:Hpause.
    + rewrite (rate_limited_turn _ _ _ _ Hpause).
      specialize (IH (S retry_count) (log (Sleep seconds) (log set_purpose st))).
      destruct (set_purpose_loop _ _ _ _ _ _ _ _) as [o st'].
      rewrite !set_purpose_calls_log in IH. destruct IH as [Hcalls Ho].
      split; [lia|]. destruct Ho as [->|Ho]; [left; f_equal; lia|now right].
    + cbn [set_purpose_loop]. run_step. rewrite rate_limited. run_step.
      cbn [String.eqb Ascii.eqb Bool.eqb]. run_step.
      destruct (retry_after (past st)) as [[n|t]|]; try discriminate. run_step.
      rewrite set_purpose_calls_log. split; [lia|]. right. now exists t.
Qed.

End RetryBound.

(** ** Leaving after a description update *)

Section Leave.
Variable cl : client.
Variables channel_id channel_name new_description : string.

Local Abbreviation leave := (Call (conversations_leave channel_id)).

Ltac grown :=
  unfold log; cbn [past]; rewrite <- ?app_assoc;
  eexists; split; [reflexivity|].

Lemma set_purpose_loop_leaves remaining retry_count st :
  let (o, st') :=
    set_purpose_loop cl channel_id channel_name new_description false
      remaining retry_count st in
  exists evs,
    past st' = (past st ++ evs)%list
    /\ match o with
       | Normal n => n = retry_count + remaining \/ In leave evs
       | Returned _ => In leave evs
       | Raised e => is_Exception e = true
       end.
Proof.
  revert retry_count st.
  induction remaining as [|remaining IH]; intros retry_count st.
  - cbn. exists []. rewrite app_nil_r. split; [reflexivity|]. left. lia.
  - cbn [set_purpose_loop]. run_step.
    repeat (first [ask_client | branch]; run_step).
    all: try (grown; cbn; auto 10; fail).
    all: match goal with
         | |- context [set_purpose_loop _ _ _ _ _ ?n ?rc ?st'] =>
             specialize (IH rc st');
             destruct (set_purpose_loop cl channel_id channel_name new_description
                         false n rc st') as [o st''];
             destruct IH as (evs & E & H); rewrite E
         end.
    all: grown; destruct o; try assumption;
      try (rewrite in_app_iff; cbn; tauto).
    all: destruct H as [->|H]; [left; lia | right; rewrite in_app_iff; cbn; tauto].
Qed.

Lemma update_leaves {R} st st2
  (Hreach : reaches_update cl channel_id channel_name st false st2) :
  exists before after,
    past (snd (@update_description cl R channel_id channel_name new_description st))
    = (past st2 ++ before ++ leave :: after)%list.
Proof.
  destruct Hreach as (st1 & Hm & Hj).
  unfold update_description. run_step. rewrite Hm. run_step. rewrite Hj. run_step.
  unfold update_description_apply, update_description_failed. run_step.
  pose proof (set_purpose_loop_leaves max_retries 0 st2) as Hloop.
  destruct (set_purpose_loop cl channel_id channel_name new_description false
              max_retries 0 st2) as [o st3].
  destruct Hloop as (evs & E & H).
  assert (Hin : forall evs', In leave evs' ->
            exists before after, (past st2 ++ evs')%list
                                 = (past st2 ++ before ++ leave :: after)%list).
  { intros evs' Hi. apply in_split in Hi as (before & after & ->).
    now exists before, after. }
  destruct o as [n|r|e]; [| |destruct e; try discriminate H]; run_step.
  all: repeat (first [ask_client | branch]; run_step).
  all: cbn [snd]; unfold log; cbn [past]; rewrite ?E; rewrite <- ?app_assoc;
    apply Hin; rewrite ?in_app_iff; cbn [In]; try tauto.
  all: destruct H as [->|H]; [discriminate | tauto].
Qed.

Variable cl' : client.
Hypothesis agree : same_but_leave cl cl'.
Hypothesis soft : leave_answers channel_id cl.
Hypothesis soft' : leave_answers channel_id cl'.

Ltac to_cl :=
  match goal with
  | |- context [answer cl' ?h ?c] =>
      lazymatch c with
      | conversations_leave _ => fail
      | _ => rewrite (agree h c eq_refl)
      end
  end.

Ltac ask_leave :=
  match goal with
  | |- context [answer ?c ?h (conversations_leave channel_id)] =>
      let E := fresh "Left" in
      destruct (answer c h (conversations_leave channel_id)) eqn:E;
      [ | | first [now apply soft in E | now apply soft' in E] ]
  end.

Ltac lockstep := repeat (first [to_cl | ask_leave | ask_client | branch]; run_step).

Lemma set_purpose_loop_same was_member remaining retry_count st :
  set_purpose_loop cl' channel_id channel_name new_description was_member
    remaining retry_count st
  = set_purpose_loop cl channel_id channel_name new_description was_member
      remaining retry_count st.
Proof.
  revert retry_count st.
  induction remaining as [|remaining IH]; intros retry_count st; [reflexivity|].
  cbn [set_purpose_loop]. run_step. lockstep.
  all: try reflexivity.
  all: apply IH.
Qed.

Lemma update_description_same {R} st :
  @update_description cl' R channel_id channel_name new_description st
  = @update_description cl R channel_id channel_name new_description st.
Proof.
  unfold update_description, update_description_membership, update_description_join,
    update_description_apply, update_description_failed.
  run_step.
  repeat (first [ to_cl | rewrite set_purpose_loop_same | ask_leave | ask_client | branch
                | match goal with
                  | |- context [set_purpose_loop cl ?a ?b ?c ?d ?n ?rc ?st0] =>
                      destruct (set_purpose_loop cl a b c d n rc st0) as [[?|?|[]] ?]
                  end ];
          run_step).
  all: reflexivity.
Qed.
End Leave.

(** Sample workspace *)




(** ** The approval gate *)

Lemma approvals_app l1 l2 : approvals (l1 ++ l2) = approvals l1 + approvals l2.
Proof. unfold approvals. now rewrite filter_app, length_app. Qed.

Lemma approvals_call c l : approvals (Call c :: l) = approvals l.
Proof. reflexivity. Qed.

Lemma approvals_sleep n l : approvals (Sleep n :: l) = approvals l.
Proof. reflexivity. Qed.

Ltac branch_more :=
  first
    [ branch
    | match goal with
      | |- context [match ?o with _ => _ end] =>
          lazymatch type of o with
          | page_reply => let E := fresh "Pg" in destruct o eqn:E
          end
      end ].

Ltac grown :=
  unfold log; cbn [past stdin]; rewrite <- ?app_assoc;
  eexists; split; [reflexivity|].

Section GateFacts.
Variable cl : client.

Lemma quit_cons e evs : quit_last evs -> quit_last (e :: evs).
Proof. intros (h & line & -> & Hq). now exists (e :: h), line. Qed.

Lemma prompt_events {A} lines st :
  let (o, st') := @prompt A lines st in
  exists evs,
    past st' = (past st ++ evs)%list
    /\ Forall harmless evs
    /\ match o with
       | Returned b => approvals evs = if b then 1 else 0
       | Raised e => approvals evs = 0 /\ (is_Exception e = false -> quit_last evs)
       | Normal _ => False
       end.
Proof.
  revert st. induction lines as [|line lines IH]; intros st; cbn [prompt].
  - grown. split; [repeat constructor|]. split; [reflexivity|discriminate].
  - destruct (String.eqb_spec (Py.lower line) "q") as [Hq|Hq].
    { grown. split; [repeat constructor|]. unfold approvals. cbn. rewrite Hq.
      split; [reflexivity|]. intros _. now exists [], line. }
    cbn [existsb orb].
    destruct (String.eqb_spec (Py.lower line) "y") as [Hy|Hy].
    { grown. split; [repeat constructor|]. unfold approvals. cbn. now rewrite Hy. }
    destruct (String.eqb_spec (Py.lower line) "n") as [Hn|Hn].
    { cbn [orb]. grown. split; [repeat constructor|]. unfold approvals. cbn.
      now rewrite Hn. }
    cbn [orb].
    specialize (IH (log (Input (Some line)) {| past := past st; stdin := lines |})).
    destruct (prompt lines _) as [o st']. destruct IH as (evs & E & Hh & Ho).
    rewrite E. grown. cbn [app]. split; [constructor; [reflexivity|exact Hh]|].
    assert (Ha : approvals (Input (Some line) :: evs) = approvals evs).
    { unfold approvals. cbn.
      destruct (String.eqb_spec (Py.lower line) "y"); [contradiction|reflexivity]. }
    rewrite Ha. destruct o; try exact Ho.
    destruct Ho as [H0 Hquit]. split; [exact H0|].
    intros He. apply quit_cons. now apply Hquit.
Qed.

(** What the gate does: it only reads, it approves exactly when the
    operator answered [y], and it is interrupted only by the operator's
    [q]. *)
Lemma get_user_approval_events {R} ch action target_value current st :
  let (o, st') := @get_user_approval cl R ch action target_value current st in
  exists evs,
    past st' = (past st ++ evs)%list
    /\ Forall harmless evs
    /\ match o with
       | Normal b => approvals evs = if b then 1 else 0
       | Raised e => approvals evs = 0 /\ (is_Exception e = false -> quit_last evs)
       | Returned _ => False
       end.
Proof.
  unfold get_user_approval, get_channel_info. run_step.
  repeat (first [ask_client | branch_more]; run_step).
  all: try (grown; split; [repeat constructor|];
            first [reflexivity | split; [reflexivity|discriminate]]).
  all: match goal with
       | |- context [prompt ?lines ?st0] =>
           let Hp := fresh "Hp" in
           pose proof (@prompt_events bool lines st0) as Hp;
           destruct (@prompt bool lines st0) as [[?|?|?] st3];
           destruct Hp as (evs & E & Hh & Ho)
       end; try contradiction; rewrite E; grown; cbn [app];
       (split; [repeat (constructor; [reflexivity|]); exact Hh|]);
       rewrite ?approvals_call; try exact Ho.
  all: destruct Ho as [H0 Hquit]; (split; [exact H0|]);
    intros He; repeat apply quit_cons; now apply Hquit.
Qed.
End GateFacts.

(** ** The orchestrator *)

Section OrchestratorFacts.
Variable cl : client.

Lemma get_all_channels_pages_events {R} rest this all_channels st :
  let (o, st') := @get_all_channels_pages R this rest all_channels st in
  exists evs,
    past st' = (past st ++ evs)%list
    /\ Forall harmless evs /\ approvals evs = 0.
Proof.
  revert this all_channels st.
  induction rest as [|next rest IH]; intros this all_channels st;
    cbn [get_all_channels_pages]; run_step.
  - repeat (branch_more; run_step).
    all: grown; split; [repeat constructor|reflexivity].
  - repeat (branch_more; run_step).
    all: try (grown; split; [repeat constructor|reflexivity]).
    all: match goal with
         | |- context [get_all_channels_pages ?a ?b ?c ?d] =>
             specialize (IH a c d);
             destruct (@get_all_channels_pages R a b c d) as [o st'];
             destruct IH as (evs & E & Hh & Ha)
         end; rewrite E; grown; cbn [app];
         (split; [repeat (constructor; [reflexivity|]); exact Hh
                 | rewrite ?approvals_call, ?approvals_sleep; exact Ha]).
Qed.

Lemma get_all_channels_events {R} st :
  let (o, st') := @get_all_channels cl R st in
  exists evs,
    past st' = (past st ++ evs)%list
    /\ Forall harmless evs /\ approvals evs = 0.
Proof.
  unfold get_all_channels. run_step.
  pose proof (@get_all_channels_pages_events (list Conv.t)
                (following (listing_of cl (past st) true))
                (first (listing_of cl (past st) true)) [] st) as H.
  destruct (get_all_channels_pages _ _ _ _) as [[?|?|?] st'].
  all: exact H.
Qed.

(** One turn of the loop in a dry run. *)
Lemma process_channel_dry_run current ch acc st :
  let (o, st') := process_channel cl true current ch acc st in
  exists evs,
    past st' = (past st ++ evs)%list
    /\ Forall harmless evs
    /\ match o with
       | Normal acc' | Returned (continue_ acc') | Returned (break_ acc') =>
           successful acc' = successful acc + approvals evs
           /\ successful_channel_ids acc' = successful_channel_ids acc
       | Raised _ => approvals evs = 0
       end.
Proof.
  unfold process_channel. run_step.
  repeat (branch; run_step).
  all: try (exists []; rewrite app_nil_r; repeat split; try constructor; cbn; lia).
  all: match goal with
       | |- context [get_user_approval ?c ?a ?b ?d ?e ?f] =>
           let H := fresh "Hg" in
           pose proof (@get_user_approval_events c jump a b d e f) as H;
           destruct (@get_user_approval c jump a b d e f) as [[[]|?|[]] st'];
           destruct H as (evs & E & Hh & Ha)
       end; try contradiction;
       try match type of Ha with _ /\ _ => destruct Ha as [Ha _] end; run_step.
  all: exists evs; repeat split; try assumption; cbn; lia.
Qed.

Lemma for_each_channel_dry_run current batch acc st :
  let '(_, acc', st') := for_each_channel cl true current batch acc st in
  exists evs,
    past st' = (past st ++ evs)%list
    /\ Forall harmless evs
    /\ successful acc' = successful acc + approvals evs
    /\ successful_channel_ids acc' = successful_channel_ids acc.
Proof.
  revert acc st. induction batch as [|ch batch IH]; intros acc st; cbn [for_each_channel].
  - exists []. rewrite app_nil_r. repeat split; try constructor. cbn. lia.
  - pose proof (process_channel_dry_run current ch acc st) as Hp.
    destruct (process_channel cl true current ch acc st) as [[acc'|[acc'|acc']|e] st1];
      destruct Hp as (evs1 & E1 & Hh1 & H1).
    1,2: specialize (IH acc' st1);
      destruct (for_each_channel cl true current batch acc' st1) as [[en acc2] st2];
      destruct IH as (evs2 & E2 & Hh2 & Hs2 & Hi2); destruct H1 as [Hs1 Hi1];
      exists (evs1 ++ evs2)%list; rewrite E2, E1, app_assoc, approvals_app;
      repeat split; [now apply Forall_app | lia | congruence].
    + exists evs1. destruct H1. now repeat split.
    + exists evs1. repeat split; try assumption. lia.
Qed.

Lemma execute_channel_actions_dry_run batch st :
  let (acc, st') := execute_channel_actions cl batch true st in
  exists evs,
    past st' = (past st ++ evs)%list
    /\ Forall harmless evs
    /\ successful acc = approvals evs
    /\ successful_channel_ids acc = [].
Proof.
  unfold execute_channel_actions.
  pose proof (@get_all_channels_events unit st) as Hs.
  destruct (@get_all_channels cl unit st) as [[current|?|?] st1];
    destruct Hs as (evs1 & E1 & Hh1 & Ha1).
  2,3: exists evs1; repeat split; try assumption; cbn; lia.
  pose proof (for_each_channel_dry_run current (sorted action_priority batch)
                no_actions st1) as Hl.
  destruct (for_each_channel cl true current _ no_actions st1) as [[en acc] st2].
  destruct Hl as (evs2 & E2 & Hh2 & Hs2 & Hi2).
  exists (evs1 ++ evs2)%list. rewrite E2, E1, app_assoc, approvals_app.
  repeat split; [now apply Forall_app | cbn in Hs2; lia | exact Hi2].
Qed.
End OrchestratorFacts.

(** C7. In a dry run no mutating call is issued (only listings and lookups of
    channels), and the count of successful actions is the number of approvals
    of the operator. *)
Theorem dry_run_issues_no_mutation (cl : client) (batch : list ChannelRecord)
  (st : state) :
  let (summary, st') := execute_channel_actions cl batch true st in
  exists evs,
    since st st' evs
    /\ Forall (fun e => mutation e = false) evs
    /\ successful summary = approvals evs.
Proof.
  pose proof (execute_channel_actions_dry_run cl batch st) as H.
  destruct (execute_channel_actions cl batch true st) as [summary st'].
  destruct H as (evs & E & Hh & Hs & _). now exists evs.
Qed.

(** C9. In a dry run the returned list of successful channels is empty, also
    when the count of successful actions is not zero. *)
Theorem dry_run_returns_no_channel_ids :
  (forall (cl : client) (batch : list ChannelRecord) (st : state),
     successful_channel_ids (fst (execute_channel_actions cl batch true st)) = [])
  /\ (let summary :=
        fst (execute_channel_actions calm five_channels true (terminal ["y"; "y"; "n"])) in
      successful summary = 2 /\ successful_channel_ids summary = []).
Proof.
  split.
  - intros cl batch st.
    pose proof (execute_channel_actions_dry_run cl batch st) as H.
    destruct (execute_channel_actions cl batch true st) as [summary st'].
    destruct H as (evs & _ & _ & _ & Hi). exact Hi.
  - vm_compute. split; reflexivity.
Qed.

(** ** A batch of keeps *)

Section KeepFacts.
Variable cl : client.

Lemma process_channel_keep dry_run current ch acc st :
  has_action KEEP ch ->
  process_channel cl dry_run current ch acc st
  = (Returned (continue_ (if valid ch then acc else skip acc)), st).
Proof.
  intros (s & Ha & Hl). unfold process_channel, valid. run_step.
  destruct (Py.truthy (channel_id ch)), (Py.truthy (name ch)); run_step;
    try reflexivity.
  rewrite Ha, Hl. reflexivity.
Qed.

Lemma for_each_channel_keep dry_run current batch acc st :
  Forall (has_action KEEP) batch ->
  exists acc',
    for_each_channel cl dry_run current batch acc st = (Exhausted, acc', st)
    /\ successful acc' = successful acc /\ failed acc' = failed acc
    /\ skipped acc' = skipped acc + invalid_count batch
    /\ successful_channel_ids acc' = successful_channel_ids acc.
Proof.
  intros Hk. revert acc. induction Hk as [|ch batch Hch Hk IH]; intros acc.
  - exists acc. cbn. repeat split; lia.
  - cbn [for_each_channel]. rewrite (process_channel_keep _ _ _ _ Hch).
    destruct (IH (if valid ch then acc else skip acc)) as (acc' & E & Hs & Hf & Hsk & Hi).
    exists acc'. rewrite E, Hs, Hf, Hsk, Hi. unfold invalid_count. cbn [filter].
    destruct (valid ch); cbn; repeat split; lia.
Qed.

Lemma invalid_count_perm batch batch' :
  Permutation batch batch' -> invalid_count batch = invalid_count batch'.
Proof.
  unfold invalid_count.
  induction 1 as [|x l l' _ IH|x y l|l l' l'' _ IH1 _ IH2]; cbn [filter].
  - reflexivity.
  - destruct (negb (valid x)); cbn; now rewrite IH.
  - destruct (negb (valid x)), (negb (valid y)); reflexivity.
  - now rewrite IH1.
Qed.

Lemma invalid_count_sorted batch :
  invalid_count (sorted action_priority batch) = invalid_count batch.
Proof. symmetry. apply invalid_count_perm, sorted_perm. Qed.
End KeepFacts.

(** C1, as amended.  A batch in which every action is [keep] issues no
    mutating call and ends with no successful and no failed action and an empty
    list of successful channels; the skipped count is the number of records
    without identity field or display name (when the snapshot was fetched; 0
    otherwise), so the valid [keep] records are not counted at all. *)
Theorem all_keep_batch_changes_nothing (cl : client) (batch : list ChannelRecord)
  (dry_run : bool) (st : state) (Hkeep : Forall (has_action KEEP) batch) :
  let (summary, st') := execute_channel_actions cl batch dry_run st in
  successful summary = 0 /\ failed summary = 0
  /\ successful_channel_ids summary = []
  /\ (exists evs, since st st' evs /\ Forall (fun e => mutation e = false) evs)
  /\ skipped summary <= invalid_count batch
  /\ match fst (@get_all_channels cl unit st) with
     | Normal _ => skipped summary = invalid_count batch
     | _ => skipped summary = 0
     end.
Proof.
  unfold execute_channel_actions.
  pose proof (@get_all_channels_events cl unit st) as Hs.
  destruct (@get_all_channels cl unit st) as [[current|?|?] st1];
    destruct Hs as (evs & E & Hh & _); cbn [fst].
  2,3: cbn; split; [reflexivity|]; split; [reflexivity|]; split; [reflexivity|];
    split; [now exists evs|]; split; [lia|reflexivity].
  assert (Hk : Forall (has_action KEEP) (sorted action_priority batch))
    by (eapply Permutation_Forall; [apply sorted_perm|exact Hkeep]).
  destruct (for_each_channel_keep cl dry_run current no_actions st1 Hk)
    as (acc & -> & Hsu & Hf & Hsk & Hi).
  rewrite invalid_count_sorted in Hsk. cbn in Hsu, Hf, Hsk, Hi.
  split; [exact Hsu|]. split; [exact Hf|]. split; [exact Hi|].
  split; [now exists evs|]. split; [lia|exact Hsk].
Qed.

Lemma all_keep_batch_changes_nothing_witness :
  let (summary, st') :=
    execute_channel_actions calm
      [row "C1" "proj-x" "keep" None; row "" "lost" "KEEP" None] false (terminal []) in
  successful summary = 0 /\ failed summary = 0
  /\ successful_channel_ids summary = []
  /\ (exists evs, since (terminal []) st' evs /\ Forall (fun e => mutation e = false) evs)
  /\ skipped summary <= invalid_count [row "C1" "proj-x" "keep" None; row "" "lost" "KEEP" None]
  /\ match fst (@get_all_channels calm unit (terminal [])) with
     | Normal _ =>
         skipped summary
         = invalid_count [row "C1" "proj-x" "keep" None; row "" "lost" "KEEP" None]
     | _ => skipped summary = 0
     end.
Proof.
  apply (@all_keep_batch_changes_nothing calm
           [row "C1" "proj-x" "keep" None; row "" "lost" "KEEP" None] false (terminal [])).
  repeat constructor; eexists; split; reflexivity.
Defined.

(** C1 fails as stated: a valid [keep] record is passed over without being
    counted, so a batch of one valid [keep] ends with 0 skipped, not 1. *)
Lemma keep_is_not_counted_counterexample :
  let batch := [row "C1" "proj-x" "keep" None] in
  Forall (has_action KEEP) batch
  /\ invalid_count batch = 0
  /\ List.length batch = 1
  /\ skipped (fst (execute_channel_actions calm batch false (terminal []))) = 0.
Proof.
  cbn zeta. split; [|repeat split; reflexivity].
  repeat constructor. eexists. split; reflexivity.
Qed.

(** ** The operator's abort *)

Lemma def_outcome {R R'} (body : stmt R R) st :
  match fst (@def R R' body st) with Returned _ => False | _ => True end.
Proof. unfold def. destruct (body st) as [[?|?|?] ?]; exact I. Qed.

Lemma get_channel_info_outcome cl {R} channel_id st :
  match fst (@get_channel_info cl R channel_id st) with
  | Returned _ => False
  | _ => True
  end.
Proof. apply def_outcome. Qed.

Lemma execute_action_outcome cl {R} channel_id channel_name action target current st :
  match fst (@execute_action cl R channel_id channel_name action target current st) with
  | Returned _ => False
  | _ => True
  end.
Proof. apply def_outcome. Qed.

Lemma get_user_approval_outcome cl {R} ch action target current st :
  match fst (@get_user_approval cl R ch action target current st) with
  | Returned _ => False
  | _ => True
  end.
Proof. apply def_outcome. Qed.

Ltac call_def :=
  match goal with
  | |- context [@get_channel_info ?c ?R ?i ?s] =>
      let H := fresh "Hdef" in
      pose proof (@get_channel_info_outcome c R i s) as H;
      destruct (@get_channel_info c R i s) as [[?|?|?] ?]; cbn [fst] in H;
      [ | contradiction | ]
  | |- context [@execute_action ?c ?R ?i ?n ?a ?t ?cur ?s] =>
      let H := fresh "Hdef" in
      pose proof (@execute_action_outcome c R i n a t cur s) as H;
      destruct (@execute_action c R i n a t cur s) as [[?|?|?] ?]; cbn [fst] in H;
      [ | contradiction | ]
  end.

Section AbortFacts.
Variable cl : client.

Lemma for_each_channel_app dry_run current l1 l2 acc st :
  for_each_channel cl dry_run current (l1 ++ l2) acc st
  = match for_each_channel cl dry_run current l1 acc st with
    | (Exhausted, acc1, st1) => for_each_channel cl dry_run current l2 acc1 st1
    | ended => ended
    end.
Proof.
  revert acc st. induction l1 as [|ch l1 IH]; intros acc st; [reflexivity|].
  cbn [app for_each_channel].
  destruct (process_channel cl dry_run current ch acc st) as [[acc'|[acc'|acc']|e] st'];
    try reflexivity; apply IH.
Qed.

(** The loop is only ever broken by the operator's [q] at the prompt, and
    the counters are then as they were before the turn. *)
Lemma process_channel_break dry_run current ch acc st acc' st' :
  process_channel cl dry_run current ch acc st = (Returned (break_ acc'), st') ->
  acc' = acc /\ exists evs, since st st' evs /\ quit_last evs.
Proof.
  unfold process_channel. run_step.
  repeat (branch; run_step).
  all: try (intros [= <- <-]; fail); try discriminate.
  all: match goal with
       | |- context [get_user_approval ?c ?a ?b ?d ?e ?f] =>
           let H := fresh "Hg" in
           pose proof (@get_user_approval_events c jump a b d e f) as H;
           destruct (@get_user_approval c jump a b d e f) as [[[]|?|[]] st1];
           destruct H as (evs & E & Hh & Ha)
       end; try contradiction; run_step.
  all: try discriminate.
  all: repeat (first [call_def | branch]; run_step); try discriminate.
  all: intros [= <- <-]; split; [reflexivity|]; exists evs; split; [exact E|];
    now apply Ha.
Qed.
(** Conversely, an operator who types [q] at the prompt of an item breaks
    the loop there. *)
Lemma prompt_quit {A} line lines st :
  Py.lower line = "q" ->
  @prompt A (line :: lines) st
  = (Raised (KeyboardInterrupt "User requested to quit"),
     log (Input (Some line)) {| past := past st; stdin := lines |}).
Proof. intros Hq. cbn [prompt]. now rewrite Hq. Qed.

Lemma interrupted_approval_breaks dry_run current ch a acc st text st' :
  valid ch = true -> action ch = Some a ->
  Py.truthy (Py.lower a) = true -> Py.lower a <> value KEEP ->
  in_values (Py.lower a) = true ->
  @get_user_approval cl jump ch (Py.lower a) (target_value ch) (Some current) st
  = (Raised (KeyboardInterrupt text), st') ->
  process_channel cl dry_run current ch acc st = (Returned (break_ acc), st').
Proof.
  unfold valid, process_channel. intros Hv Ha Ht Hk Hin Hq.
  apply andb_true_iff in Hv as [-> ->]. rewrite Ha. run_step.
  rewrite Ht, Hin. apply String.eqb_neq in Hk. rewrite Hk. run_step.
  rewrite Hq. reflexivity.
Qed.

End AbortFacts.

(** C6. When the operator aborts at an item, after the items before it were
    dealt with, the run ends there: the summary holds the counters as they were
    before that item, the last thing that happened is the operator's [q], and
    nothing of the rest of the batch is looked at. *)
Theorem abort_ends_the_run (cl : client) (batch : list ChannelRecord) (dry_run : bool)
  (st st0 st1 st2 : state) (current : list Conv.t)
  (before rest : list ChannelRecord) (ch : ChannelRecord) (acc1 acc2 : ExecutionSummary)
  (Hsnapshot : @get_all_channels cl unit st = (Normal current, st0))
  (Horder : sorted action_priority batch = (before ++ ch :: rest)%list)
  (Hbefore : for_each_channel cl dry_run current before no_actions st0
             = (Exhausted, acc1, st1))
  (Habort : process_channel cl dry_run current ch acc1 st1
            = (Returned (break_ acc2), st2)) :
  execute_channel_actions cl batch dry_run st = (acc1, st2)
  /\ (exists evs, since st1 st2 evs /\ quit_last evs)
  /\ forall rest',
       for_each_channel cl dry_run current (before ++ ch :: rest') no_actions st0
       = (Broke, acc1, st2).
Proof.
  destruct (process_channel_break _ _ _ _ _ _ Habort) as [-> Hquit].
  assert (Hrest : forall rest',
            for_each_channel cl dry_run current (before ++ ch :: rest') no_actions st0
            = (Broke, acc1, st2)).
  { intros rest'. rewrite for_each_channel_app, Hbefore.
    cbn [for_each_channel]. now rewrite Habort. }
  split; [|split; [exact Hquit|exact Hrest]].
  unfold execute_channel_actions. rewrite Hsnapshot, Horder, Hrest. reflexivity.
Qed.

Lemma abort_ends_the_run_witness :
  execute_channel_actions calm five_channels false (terminal ["y"; "q"; "y"])
  = ({| successful := 1; failed := 0; skipped := 0;
        last_action := Some (row "C1" "proj-x" "rename" (Some "proj-y"),
                             "rename", Some "proj-y");
        successful_channel_ids := ["C1"] |},
     {| past := [Call (conversations_list true);
                 Call (conversations_info "C1"); Input (Some "y");
                 Call (conversations_info "C1");
                 Call (conversations_rename "C1" "proj-y"); Sleep 1;
                 Call (conversations_info "C5"); Input (Some "q")];
        stdin := ["y"] |})
  /\ (exists evs,
        since {| past := [Call (conversations_list true);
                          Call (conversations_info "C1"); Input (Some "y");
                          Call (conversations_info "C1");
                          Call (conversations_rename "C1" "proj-y"); Sleep 1];
                 stdin := ["q"; "y"] |}
              {| past := [Call (conversations_list true);
                          Call (conversations_info "C1"); Input (Some "y");
                          Call (conversations_info "C1");
                          Call (conversations_rename "C1" "proj-y"); Sleep 1;
                          Call (conversations_info "C5"); Input (Some "q")];
                 stdin := ["y"] |} evs
        /\ quit_last evs)
  /\ forall rest',
       for_each_channel calm false directory
         ([row "C1" "proj-x" "rename" (Some "proj-y")]
          ++ row "C5" "help" "rename" (Some "helpdesk") :: rest') no_actions
         {| past := [Call (conversations_list true)]; stdin := ["y"; "q"; "y"] |}
       = (Broke,
          {| successful := 1; failed := 0; skipped := 0;
             last_action := Some (row "C1" "proj-x" "rename" (Some "proj-y"),
                                  "rename", Some "proj-y");
             successful_channel_ids := ["C1"] |},
          {| past := [Call (conversations_list true);
                      Call (conversations_info "C1"); Input (Some "y");
                      Call (conversations_info "C1");
                      Call (conversations_rename "C1" "proj-y"); Sleep 1;
                      Call (conversations_info "C5"); Input (Some "q")];
             stdin := ["y"] |}).
Proof.
  apply (@abort_ends_the_run calm five_channels false (terminal ["y"; "q"; "y"])
           {| past := [Call (conversations_list true)]; stdin := ["y"; "q"; "y"] |}
           _ _ directory
           [row "C1" "proj-x" "rename" (Some "proj-y")]
           [row "C2" "old-team" "archive" None; row "C4" "lobby" "archive" None;
            row "C3" "random" "update_description" (Some "Chit-chat")]
           (row "C5" "help" "rename" (Some "helpdesk")) _
           {| successful := 1; failed := 0; skipped := 0;
              last_action := Some (row "C1" "proj-x" "rename" (Some "proj-y"),
                                   "rename", Some "proj-y");
              successful_channel_ids := ["C1"] |}).
  - reflexivity.
  - reflexivity.
  - reflexivity.
  - reflexivity.
Defined.

(** ** The case of the action *)

Section CaseFacts.
Variable cl : client.

Lemma ch_lower_idem c : Py.ch_lower (Py.ch_lower c) = Py.ch_lower c.
Proof. destruct c as [[] [] [] [] [] [] [] []]; reflexivity. Qed.

Lemma lower_idem s : Py.lower (Py.lower s) = Py.lower s.
Proof. induction s as [|c s IH]; cbn; [reflexivity|]. now rewrite ch_lower_idem, IH. Qed.

Lemma action_priority_lower ch : action_priority (lower_action ch) = action_priority ch.
Proof.
  unfold action_priority, lower_action. cbn [action].
  destruct (action ch) as [a|]; cbn [option_map]; [|reflexivity].
  now rewrite lower_truthy, lower_idem.
Qed.

Lemma insert_lower ch l :
  insert action_priority (lower_action ch) (map lower_action l)
  = map lower_action (insert action_priority ch l).
Proof.
  induction l as [|y l IH]; cbn [insert map]; [reflexivity|].
  rewrite !action_priority_lower.
  destruct (Nat.leb (action_priority ch) (action_priority y)); cbn [map];
    [reflexivity|]. now rewrite IH.
Qed.

Lemma sorted_lower batch :
  sorted action_priority (map lower_action batch)
  = map lower_action (sorted action_priority batch).
Proof.
  induction batch as [|ch batch IH]; cbn [sorted map]; [reflexivity|].
  now rewrite IH, insert_lower.
Qed.

Lemma process_channel_lower dry_run current ch acc st :
  process_channel cl dry_run current (lower_action ch) (lower_summary acc) st
  = lower_turn (process_channel cl dry_run current ch acc st).
Proof.
  unfold process_channel.
  change (channel_id (lower_action ch)) with (channel_id ch).
  change (name (lower_action ch)) with (name ch).
  change (target_value (lower_action ch)) with (target_value ch).
  change (action (lower_action ch)) with (option_map Py.lower (action ch)).
  destruct (action ch) as [a|] eqn:Ha; cbn [option_map]; rewrite ?lower_idem; run_step.
  2:{ repeat (branch; run_step); reflexivity. }
  repeat (first
    [ branch
    | match goal with
      | |- context [@get_user_approval cl ?R (lower_action ch) ?x ?t ?c ?s] =>
          change (@get_user_approval cl R (lower_action ch) x t c s)
          with (@get_user_approval cl R ch x t c s)
      end
    | match goal with
      | |- context [@get_user_approval cl ?R ch ?x ?t ?c ?s] =>
          let H := fresh "Hdef" in
          pose proof (@get_user_approval_outcome cl R ch x t c s) as H;
          destruct (@get_user_approval cl R ch x t c s) as [[[]|?|[]] ?];
          cbn [fst] in H; try contradiction
      end
    | call_def ];
    run_step).
  all: cbn [lower_turn lower_jump]; try reflexivity.
  all: unfold lower_summary, record_success, lower_action; cbn [last_action];
    rewrite Ha; reflexivity.
Qed.

Lemma for_each_channel_lower dry_run current batch acc st :
  for_each_channel cl dry_run current (map lower_action batch) (lower_summary acc) st
  = let '(ended, acc', st') := for_each_channel cl dry_run current batch acc st in
    (ended, lower_summary acc', st').
Proof.
  revert acc st. induction batch as [|ch batch IH]; intros acc st;
    cbn [map for_each_channel]; [reflexivity|].
  rewrite process_channel_lower.
  destruct (process_channel cl dry_run current ch acc st) as [[acc'|[acc'|acc']|e] st'];
    cbn [lower_turn lower_jump]; try reflexivity; apply IH.
Qed.

Lemma execute_channel_actions_lower batch dry_run st :
  execute_channel_actions cl (map lower_action batch) dry_run st
  = let (summary, st') := execute_channel_actions cl batch dry_run st in
    (lower_summary summary, st').
Proof.
  unfold execute_channel_actions. rewrite sorted_lower.
  destruct (@get_all_channels cl unit st) as [[current|?|?] st1]; try reflexivity.
  change no_actions with (lower_summary no_actions) at 1.
  rewrite for_each_channel_lower.
  destruct (for_each_channel cl dry_run current _ no_actions st1) as [[ended acc] st2].
  reflexivity.
Qed.
End CaseFacts.

(** C10. The case of the action strings does not matter: the batch with every
    action lowercased is processed in the same order, with the same remote
    calls, prompts and pauses in the same order, and ends with the same
    counters, the same list of successful channels and the same advisory. *)
Theorem action_case_is_irrelevant (cl : client) (batch : list ChannelRecord)
  (dry_run : bool) (st : state) :
  sorted action_priority (map lower_action batch)
  = map lower_action (sorted action_priority batch)
  /\ let (lowered, st_lowered) :=
       execute_channel_actions cl (map lower_action batch) dry_run st in
     let (summary, st') := execute_channel_actions cl batch dry_run st in
     st_lowered = st'
     /\ successful lowered = successful summary
     /\ failed lowered = failed summary
     /\ skipped lowered = skipped summary
     /\ successful_channel_ids lowered = successful_channel_ids summary
     /\ undo_note lowered = undo_note summary.
Proof.
  split; [apply sorted_lower|].
  rewrite execute_channel_actions_lower.
  destruct (execute_channel_actions cl batch dry_run st) as [summary st'].
  repeat split. unfold undo_note, lower_summary. cbn [last_action].
  destruct (last_action summary) as [[[ch a] t]|]; reflexivity.
Qed.

Lemma calm_honours_contract : sdk_contract calm.
Proof.
  intros h c r. destruct c; cbn [calm workspace answer];
    try (intros [= <-]; reflexivity).
  match goal with |- context [find ?f ?l] => destruct (find f l) end;
    intros [= <-]; reflexivity.
Qed.

Lemma execute_action_returns_an_outcome_witness :
  exists r,
    fst (@execute_action calm unit "C2" "old-team" "archive" (Some "#proj-x") None
           (terminal [])) = Normal (Some r).
Proof.
  destruct (@execute_action_returns_an_outcome calm unit "C2" "old-team" "archive"
              (Some "#proj-x") None (terminal [])) as (res & E & H).
  destruct (H calm_honours_contract) as (r & Hr & _).
  exists r. rewrite <- Hr. exact E.
Defined.

(** Outside the contract of the SDK: when the archive call returns a response
    that is not [ok] instead of raising, [archive_channel] ends without a
    [return] and [execute_action] returns [None]. *)
Lemma execute_action_not_ok_response :
  fst (@execute_action unvalidated unit "C2" "old-team" "archive" None None (terminal []))
  = Normal None.
Proof. reflexivity. Qed.



(** * Further properties of the handler *)

(** X1. An action other than archive, rename and update_description makes no
    remote call and reads nothing: [execute_action] returns at once, with a
    success for [keep] and a failure for [new] and for any unknown action. *)
Theorem other_actions_touch_nothing (cl : client) {R}
  (channel_id channel_name action : string) (target_value : option string)
  (current_channels : option (list Conv.t)) (st : state)
  (Harchive : action <> value ARCHIVE) (Hrename : action <> value RENAME)
  (Hupdate : action <> value UPDATE_DESCRIPTION) :
  exists r,
    @execute_action cl R channel_id channel_name action target_value current_channels st
    = (Normal (Some r), st)
    /\ (success r = true <-> action = value KEEP).
Proof.
  unfold execute_action.
  apply String.eqb_neq in Harchive, Hrename, Hupdate.
  destruct (String.eqb_spec action (value KEEP)) as [->|NK].
  - eexists. split; [reflexivity|]. split; reflexivity.
  - run_step. rewrite Harchive, Hrename, Hupdate.
    destruct (String.eqb action (value NEW)); run_step;
      (eexists; split; [reflexivity|]; split; [discriminate|contradiction]).
Qed.

Lemma other_actions_touch_nothing_witness :
  exists r,
    @execute_action calm unit "C1" "proj-x" "new" None None (terminal ["y"])
    = (Normal (Some r), terminal ["y"])
    /\ (success r = true <-> "new" = value KEEP).
Proof.
  apply (@other_actions_touch_nothing calm unit "C1" "proj-x" "new" None None
           (terminal ["y"])); discriminate.
Defined.

Lemma forbidden_not_name_char c : forbidden_char c = true -> name_char c = false.
Proof.
  destruct c as [[] [] [] [] [] [] [] []]; vm_compute;
    intros H; try discriminate H; reflexivity.
Qed.

Lemma forbidden_name_rejected s :
  Py.any forbidden_char s = true -> Py.all name_char s = false.
Proof.
  induction s as [|c s IH]; cbn [Py.any Py.all]; [discriminate|].
  intros H. apply orb_true_iff in H as [H|H].
  - now rewrite (forbidden_not_name_char _ H).
  - rewrite (IH H). apply andb_false_r.
Qed.

(** X2. A rename to a name that is empty, longer than 80 characters, or that
    holds an uppercase letter, a space or a period is rejected by the handler
    before any remote call. *)
Theorem bad_names_never_reach_the_service (cl : client) {R}
  (channel_id channel_name new_name : string)
  (current_channels : option (list Conv.t)) (st : state)
  (Hbad : new_name = "" \/ 80 < String.length new_name
          \/ Py.any forbidden_char new_name = true) :
  exists r,
    @execute_action cl R channel_id channel_name (value RENAME) (Some new_name)
      current_channels st
    = (Normal (Some r), st)
    /\ success r = false.
Proof.
  apply rename_rejected_before_any_call.
  unfold handler_rejects_name, rename_validation, result. cbn [Py.truthy_opt str_of].
  destruct (Py.truthy new_name) eqn:Ht; [|reflexivity]. cbn [negb orb].
  destruct Hbad as [->|[Hlen|Hforb]]; [discriminate| |].
  - apply Nat.ltb_lt in Hlen. now rewrite Hlen.
  - destruct (Nat.ltb 80 (String.length new_name)); [reflexivity|].
    now rewrite (forbidden_name_rejected _ Hforb).
Qed.

Lemma bad_names_never_reach_the_service_witness :
  exists r,
    @execute_action calm unit "C1" "proj-x" (value RENAME) (Some "Proj.Y") None
      (terminal [])
    = (Normal (Some r), terminal [])
    /\ success r = false.
Proof.
  apply (@bad_names_never_reach_the_service calm unit "C1" "proj-x" "Proj.Y" None
           (terminal [])).
  right. right. reflexivity.
Defined.

Lemma lstrip_ws_blank d : Py.all Py.ch_isspace d = true -> Py.lstrip_ws d = "".
Proof.
  induction d as [|c d IH]; cbn [Py.all Py.lstrip_ws]; [reflexivity|].
  intros H. apply andb_true_iff in H as [-> H]. now apply IH.
Qed.

Lemma rstrip_ws_empty s : Py.rstrip_ws s = "" -> Py.all Py.ch_isspace s = true.
Proof.
  induction s as [|c s IH]; cbn [Py.all Py.rstrip_ws]; [reflexivity|].
  destruct (Py.rstrip_ws s); [|discriminate].
  destruct (Py.ch_isspace c); [|discriminate]. intros _. now apply IH.
Qed.

Lemma lstrip_ws_head s c s' : Py.lstrip_ws s = String c s' -> Py.ch_isspace c = false.
Proof.
  induction s as [|d s IH]; cbn [Py.lstrip_ws]; [discriminate|].
  destruct (Py.ch_isspace d) eqn:Hd; [exact IH|].
  intros [= -> ->]. exact Hd.
Qed.

(** [d.strip() == ""] exactly when [d] holds nothing but whitespace. *)
Lemma strip_empty d : Py.strip d = "" <-> Py.all Py.ch_isspace d = true.
Proof.
  unfold Py.strip. split.
  - intros H. destruct (Py.lstrip_ws d) as [|c s'] eqn:Hl.
    + clear H. induction d as [|e d IH]; [reflexivity|].
      cbn [Py.lstrip_ws Py.all] in *.
      destruct (Py.ch_isspace e); [now apply IH|discriminate].
    + apply rstrip_ws_empty in H. cbn [Py.all] in H.
      rewrite (lstrip_ws_head _ Hl) in H. discriminate.
  - intros H. now rewrite (lstrip_ws_blank _ H).
Qed.

(** X3. An update of the description with no description, or with one that
    holds nothing but whitespace, is rejected before any remote call; for any
    other description [execute_action] is [update_description]. *)
Theorem blank_description_is_rejected (cl : client) {R}
  (channel_id channel_name : string) (target_value : option string)
  (current_channels : option (list Conv.t)) (st : state) :
  if blank target_value then
    exists r,
      @execute_action cl R channel_id channel_name (value UPDATE_DESCRIPTION)
        target_value current_channels st
      = (Normal (Some r), st)
      /\ success r = false
  else
    @execute_action cl R channel_id channel_name (value UPDATE_DESCRIPTION)
      target_value current_channels st
    = @update_description cl R channel_id channel_name (str_of target_value) st.
Proof.
  destruct (blank target_value) eqn:Hb; revert Hb;
    unfold execute_action, blank; cbn [value String.eqb Ascii.eqb Bool.eqb].
  - intros Hb. run_step. destruct target_value as [d|].
    + apply strip_empty in Hb. rewrite Hb. cbn [String.eqb]. run_step.
      eexists. split; reflexivity.
    + run_step. eexists. split; reflexivity.
  - intros Hb. run_step. destruct target_value as [d|]; [|discriminate].
    destruct (String.eqb_spec (Py.strip d) "") as [E|_].
    { apply strip_empty in E. rewrite E in Hb. discriminate. }
    run_step. cbn [str_of].
    pose proof (@update_description_outcome cl (option ChannelActionResult)
                  channel_id channel_name d st) as (res & E & _).
    revert E. unfold update_description. run_step.
    match goal with
    | |- context [match ?m with pair _ _ => _ end] => destruct m as [[?|?|?] ?]
    end; run_step; try discriminate; reflexivity.
Qed.

Ltac exactly_logged :=
  unfold log; cbn [past stdin]; rewrite <- ?app_assoc; reflexivity.

Ltac archive_start :=
  unfold execute_action, archive_channel, archivable in *;
  cbn [value String.eqb Ascii.eqb Bool.eqb]; run_step.

(** X4. The archive call is only attempted on a channel whose status lookup
    succeeded and showed it active and not the general channel: otherwise the
    archive ends in a failure after that one lookup. *)
Theorem archive_needs_an_active_channel (cl : client) {R}
  (channel_id channel_name : string) (target_value : option string)
  (current_channels : option (list Conv.t)) (st : state)
  (Hstatus : archivable cl channel_id (past st) = false) :
  exists r,
    @execute_action cl R channel_id channel_name (value ARCHIVE) target_value
      current_channels st
    = (Normal (Some r), log (Call (conversations_info channel_id)) st)
    /\ success r = false.
Proof.
  revert Hstatus. archive_start.
  destruct (answer cl (past st) (conversations_info channel_id)) as [r|code ra text|text];
    run_step.
  - destruct (Conv.is_archived (channel r)); run_step;
      [intros _; eexists; split; reflexivity|].
    destruct (Conv.is_general (channel r)); run_step;
      [intros _; eexists; split; reflexivity|discriminate].
  - intros _. destruct (String.eqb code "channel_not_found"); run_step;
      eexists; split; reflexivity.
  - intros _. eexists; split; reflexivity.
Qed.

Lemma archive_needs_an_active_channel_witness :
  exists r,
    @execute_action calm unit "C9" "ghost" (value ARCHIVE) None None (terminal [])
    = (Normal (Some r), log (Call (conversations_info "C9")) (terminal []))
    /\ success r = false.
Proof.
  apply (@archive_needs_an_active_channel calm unit "C9" "ghost" None None (terminal [])).
  reflexivity.
Defined.

(** X5. An archive without redirect target, on an active channel, makes two
    calls, the status lookup and the archive, and its result is read off the
    answer to the archive call: a success when it returned, the message of the
    error code when it was refused (the raw code for an unknown one), an
    unexpected error when it failed otherwise. *)
Theorem archive_without_redirect (cl : client) {R}
  (channel_id channel_name : string) (target_value : option string)
  (current_channels : option (list Conv.t)) (st : state)
  (Hstatus : archivable cl channel_id (past st) = true)
  (Hplain : Py.truthy_opt target_value = false) :
  let st1 := log (Call (conversations_info channel_id)) st in
  @execute_action cl R channel_id channel_name (value ARCHIVE) target_value
    current_channels st
  = (Normal (archive_result channel_name None
               (answer cl (past st1) (conversations_archive channel_id))),
     log (Call (conversations_archive channel_id)) st1).
Proof.
  revert Hstatus. archive_start.
  destruct (answer cl (past st) (conversations_info channel_id)) as [r|code ra text|text];
    run_step; try discriminate.
  destruct (Conv.is_archived (channel r)); run_step; [discriminate|].
  destruct (Conv.is_general (channel r)); run_step; [discriminate|]. intros _.
  rewrite Hplain. run_step.
  destruct (answer cl _ (conversations_archive channel_id)) as [r2|code ra text|text];
    run_step; cbn [archive_result]; [|reflexivity|reflexivity].
  destruct (ok r2); run_step; rewrite ?Hplain; reflexivity.
Qed.

Lemma archive_without_redirect_witness :
  @execute_action calm unit "C2" "old-team" (value ARCHIVE) None None (terminal [])
  = (Normal (result true "Successfully archived #old-team"),
     {| past := [Call (conversations_info "C2"); Call (conversations_archive "C2")];
        stdin := [] |}).
Proof.
  apply (@archive_without_redirect calm unit "C2" "old-team" None None (terminal []));
    reflexivity.
Defined.

(** X6. An archive with a redirect target that the snapshot does not hold, or
    holds as archived, fails after the status lookup: nothing is joined, posted
    or archived. *)
Theorem archive_needs_its_redirect_target (cl : client) {R}
  (channel_id channel_name target : string) (snapshot : list Conv.t) (st : state)
  (Hstatus : archivable cl channel_id (past st) = true)
  (Htarget : Py.truthy target = true) (Hsnapshot : nonempty snapshot = true)
  (Hmissing : match find_by_name (Py.lstrip "#" target) snapshot with
              | Some found => Conv.is_archived found = true
              | None => True
              end) :
  exists r,
    @execute_action cl R channel_id channel_name (value ARCHIVE) (Some target)
      (Some snapshot) st
    = (Normal (Some r), log (Call (conversations_info channel_id)) st)
    /\ success r = false.
Proof.
  revert Hstatus. archive_start.
  destruct (answer cl (past st) (conversations_info channel_id)) as [r|code ra text|text];
    run_step; try discriminate.
  destruct (Conv.is_archived (channel r)); run_step; [discriminate|].
  destruct (Conv.is_general (channel r)); run_step; [discriminate|]. intros _.
  cbn [Py.truthy_opt str_of nonempty_opt list_of]. rewrite Htarget, Hsnapshot. run_step.
  destruct (find_by_name (Py.lstrip "#" target) snapshot) as [found|]; run_step.
  - rewrite Hmissing. run_step. eexists. split; reflexivity.
  - eexists. split; reflexivity.
Qed.

Lemma archive_needs_its_redirect_target_witness :
  exists r,
    @execute_action calm unit "C2" "old-team" (value ARCHIVE) (Some "#nowhere")
      (Some directory) (terminal [])
    = (Normal (Some r), log (Call (conversations_info "C2")) (terminal []))
    /\ success r = false.
Proof.
  apply (@archive_needs_its_redirect_target calm unit "C2" "old-team" "#nowhere"
           directory (terminal [])); reflexivity.
Defined.

(** X7. A redirect notice that cannot be posted does not block the archive:
    with a target that the snapshot holds as active, the handler tries to join,
    posts the notice and archives, whether the join and the post returned or
    were refused; the result is read off the answer to the archive call, and
    a success names the target without its leading [#]. *)
Theorem redirect_notice_does_not_block (cl : client) {R}
  (channel_id channel_name target : string) (snapshot : list Conv.t)
  (found : Conv.t) (st : state)
  (Hstatus : archivable cl channel_id (past st) = true)
  (Htarget : Py.truthy target = true) (Hsnapshot : nonempty snapshot = true)
  (Hfound : find_by_name (Py.lstrip "#" target) snapshot = Some found)
  (Hactive : Conv.is_archived found = false) :
  let st1 := log (Call (conversations_info channel_id)) st in
  let st2 := log (Call (conversations_join channel_id)) st1 in
  let st3 := log (Call (chat_postMessage channel_id (Conv.id found))) st2 in
  answered (answer cl (past st1) (conversations_join channel_id)) = true ->
  answered (answer cl (past st2) (chat_postMessage channel_id (Conv.id found))) = true ->
  @execute_action cl R channel_id channel_name (value ARCHIVE) (Some target)
    (Some snapshot) st
  = (Normal (archive_result channel_name
               (if Py.truthy (Py.lstrip "#" target)
                then Some (Py.lstrip "#" target) else None)
               (answer cl (past st3) (conversations_archive channel_id))),
     log (Call (conversations_archive channel_id)) st3).
Proof.
  cbn zeta. revert Hstatus. archive_start.
  destruct (answer cl (past st) (conversations_info channel_id)) as [r|code ra text|text];
    run_step; try discriminate.
  destruct (Conv.is_archived (channel r)); run_step; [discriminate|].
  destruct (Conv.is_general (channel r)); run_step; [discriminate|]. intros _.
  cbn [Py.truthy_opt str_of nonempty_opt list_of]. rewrite Htarget, Hsnapshot. run_step.
  rewrite Hfound. run_step. rewrite Hactive. run_step.
  unfold log at 1 2 3. cbn [past].
  intros Hj Hp. revert Hj Hp.
  destruct (answer cl _ (conversations_join channel_id)) as [rj|? ? ?|?];
    run_step; intros Hj; try discriminate Hj.
  all: unfold log at 1 2 3; cbn [past].
  all: destruct (answer cl _ (chat_postMessage channel_id (Conv.id found)))
         as [rp|? ? ?|?]; run_step; intros Hp; try discriminate Hp.
  all: destruct (answer cl _ (conversations_archive channel_id)) as [r2|? ? ?|?];
    run_step; cbn [archive_result Py.truthy_opt str_of]; try reflexivity.
  all: destruct (ok r2); run_step; cbn [Py.truthy_opt str_of];
    destruct (Py.truthy (Py.lstrip "#" target)); reflexivity.
Qed.

Lemma redirect_notice_does_not_block_witness :
  @execute_action (workspace done done) unit "C2" "old-team" (value ARCHIVE)
    (Some "#proj-x") (Some directory) (terminal [])
  = (Normal (result true "Successfully archived #old-team (with redirect to #proj-x)"),
     {| past := [Call (conversations_info "C2"); Call (conversations_join "C2");
                 Call (chat_postMessage "C2" "C1"); Call (conversations_archive "C2")];
        stdin := [] |}).
Proof.
  apply (@redirect_notice_does_not_block (workspace done done) unit "C2" "old-team"
           "#proj-x" directory (conv "C1" "proj-x" false) (terminal []));
    reflexivity.
Defined.

(** X8. A rename that passes the local validation makes one remote call, the
    rename, and its result is read off the answer: a success when the call
    returned (saying so when the service changed the name), the message of the
    error code when it was refused, an unexpected error otherwise. *)
Theorem rename_result_follows_the_answer (cl : client) {R}
  (channel_id old_name new_name : string)
  (current_channels : option (list Conv.t)) (st : state)
  (Hvalid : handler_rejects_name old_name (Some new_name) = false) :
  @execute_action cl R channel_id old_name (value RENAME) (Some new_name)
    current_channels st
  = (Normal (rename_result old_name new_name
               (answer cl (past st) (conversations_rename channel_id new_name))),
     log (Call (conversations_rename channel_id new_name)) st).
Proof.
  revert Hvalid.
  unfold handler_rejects_name, execute_action, rename_channel.
  cbn [value String.eqb Ascii.eqb Bool.eqb Py.truthy_opt str_of]. run_step.
  destruct (Py.truthy new_name); run_step; [|discriminate].
  destruct (rename_validation old_name new_name); [discriminate|]. intros _. run_step.
  destruct (answer cl (past st) (conversations_rename channel_id new_name))
    as [r|? ? ?|?]; run_step; cbn [rename_result]; try reflexivity.
  destruct (ok r); run_step; [|reflexivity].
  destruct (String.eqb (Conv.name (channel r)) new_name); reflexivity.
Qed.

Lemma rename_result_follows_the_answer_witness :
  @execute_action calm unit "C1" "proj-x" (value RENAME) (Some "proj-y") None (terminal [])
  = (Normal (result true "Successfully renamed proj-x to proj-y"),
     {| past := [Call (conversations_rename "C1" "proj-y")]; stdin := [] |}).
Proof.
  apply (@rename_result_follows_the_answer calm unit "C1" "proj-x" "proj-y" None
           (terminal [])).
  reflexivity.
Defined.

(** ** The calls of a description update *)

Lemma pauses_log e st :
  pauses (past (log e st))
  = pauses (past st) + match e with Sleep _ => 1 | _ => 0 end.
Proof.
  unfold pauses, log. cbn [past].
  rewrite filter_app, length_app. cbn [filter].
  destruct e as [[]| |]; reflexivity.
Qed.

Section UpdateFacts.
Variable cl : client.
Variables channel_id channel_name new_description : string.

Lemma set_purpose_loop_bound was_member remaining retry_count st :
  let st' := snd (set_purpose_loop cl channel_id channel_name new_description
                    was_member remaining retry_count st) in
  set_purpose_calls (past st') <= set_purpose_calls (past st) + remaining
  /\ pauses (past st') <= pauses (past st) + remaining.
Proof.
  revert retry_count st.
  induction remaining as [|remaining IH]; intros retry_count st.
  - cbn. lia.
  - cbn [set_purpose_loop]. run_step.
    repeat (first [ask_client | branch]; run_step).
    all: try (rewrite ?set_purpose_calls_log, ?pauses_log; lia).
    all: match goal with
         | |- context [set_purpose_loop _ _ _ _ _ ?n ?rc ?st0] =>
             specialize (IH rc st0); cbn zeta in IH;
             destruct (set_purpose_loop cl channel_id channel_name new_description
                         was_member n rc st0) as [o st1]
         end; cbn [snd fst] in *; rewrite ?set_purpose_calls_log, ?pauses_log in IH; lia.
Qed.

(** X9. Whatever the service answers, one description update makes at most
    three [setPurpose] calls and pauses at most three times. *)
Theorem update_description_is_bounded {R} (st : state) :
  let st' := snd (@update_description cl R channel_id channel_name new_description st) in
  set_purpose_calls (past st') <= set_purpose_calls (past st) + 3
  /\ pauses (past st') <= pauses (past st) + 3.
Proof.
  cbn zeta.
  unfold update_description, update_description_membership, update_description_join,
    update_description_apply, update_description_failed.
  run_step.
  repeat (first
    [ ask_client | branch
    | match goal with
      | |- context [set_purpose_loop cl ?a ?b ?c ?d ?n ?rc ?st0] =>
          let H := fresh "Loop" in
          pose proof (set_purpose_loop_bound d n rc st0) as H; cbn zeta in H;
          destruct (set_purpose_loop cl a b c d n rc st0) as [[?|?|[]] ?];
          cbn [snd] in H; rewrite ?set_purpose_calls_log, ?pauses_log in H
      end ];
    run_step).
  all: rewrite ?set_purpose_calls_log, ?pauses_log; unfold max_retries in *; lia.
Qed.

Lemma set_purpose_loop_member remaining retry_count st :
  let st' := snd (set_purpose_loop cl channel_id channel_name new_description
                    true remaining retry_count st) in
  exists evs, since st st' evs /\ forallb retry_event evs = true.
Proof.
  unfold since. revert retry_count st.
  induction remaining as [|remaining IH]; intros retry_count st.
  - cbn. exists []. now rewrite app_nil_r.
  - cbn [set_purpose_loop]. run_step.
    repeat (first [ask_client | branch]; run_step).
    all: try (grown; reflexivity).
    all: match goal with
         | |- context [set_purpose_loop _ _ _ _ _ ?n ?rc ?st0] =>
             specialize (IH rc st0); cbn zeta in IH;
             destruct (set_purpose_loop cl channel_id channel_name new_description
                         true n rc st0) as [o st1]
         end; cbn [snd] in *; destruct IH as (evs & E & H); rewrite E; grown;
         cbn [app forallb retry_event andb]; exact H.
Qed.

(** X10. When the caller is already a member of the channel, a description
    update neither joins nor leaves: after the lookup of the channel it makes
    nothing but [setPurpose] calls and pauses. *)
Theorem member_neither_joins_nor_leaves {R} (st : state) (r : response)
  (Hinfo : answer cl (past st) (conversations_info channel_id) = Returns r)
  (Hmember : Conv.is_member (channel r) = true) :
  let st' := snd (@update_description cl R channel_id channel_name new_description st) in
  exists evs,
    since st st' (Call (conversations_info channel_id) :: evs)
    /\ forallb retry_event evs = true.
Proof.
  cbn zeta. unfold since.
  unfold update_description, update_description_membership, update_description_join,
    update_description_apply, update_description_failed.
  run_step. rewrite Hinfo. run_step. rewrite Hmember.
  destruct (Conv.is_archived (channel r)); run_step.
  { grown. reflexivity. }
  pose proof (set_purpose_loop_member max_retries 0
                (log (Call (conversations_info channel_id)) st)) as Hloop.
  cbn zeta in Hloop.
  destruct (set_purpose_loop cl channel_id channel_name new_description true
              max_retries 0 _) as [[n|res|e] st1];
    cbn [snd] in Hloop; destruct Hloop as (evs & E & H); run_step.
  - destruct (Nat.leb max_retries n); run_step; rewrite E; grown; exact H.
  - rewrite E. grown. exact H.
  - destruct e; run_step; rewrite E; grown; exact H.
Qed.

(** X11. When the caller is not a member and the join returns without success
    or is refused as unsupported for the channel type, channel not found or
    missing permission, the update is given up: the result is a failure, and
    after the lookup and the join nothing is called, neither [setPurpose] nor
    [leave]. *)
Theorem refused_join_gives_up {R} (st : state) (r : response)
  (Hinfo : answer cl (past st) (conversations_info channel_id) = Returns r)
  (Hactive : Conv.is_archived (channel r) = false)
  (Houtside : Conv.is_member (channel r) = false)
  (Hjoin : join_refused
             (answer cl (past (log (Call (conversations_info channel_id)) st))
                (conversations_join channel_id)) = true) :
  exists res,
    @update_description cl R channel_id channel_name new_description st
    = (Normal (Some res),
       log (Call (conversations_join channel_id))
         (log (Call (conversations_info channel_id)) st))
    /\ success res = false.
Proof.
  revert Hjoin.
  unfold update_description, update_description_membership, update_description_join,
    update_description_apply, update_description_failed.
  run_step. rewrite Hinfo. run_step. rewrite Hactive, Houtside. run_step.
  destruct (answer cl _ (conversations_join channel_id)) as [rj|code ? ?|?];
    cbn [join_refused]; run_step; try discriminate.
  - destruct (ok rj); run_step; [discriminate|]. intros _. eexists. split; reflexivity.
  - intros ->. run_step. eexists. split; reflexivity.
Qed.

(** X12. A rate limit that passes is survived: when the first [setPurpose] of
    a member is answered with a rate limit and the second one returns, the
    update succeeds after one pause, of the time computed from the response
    of the error: the seconds of its [Retry-After] entry, 5 seconds when it
    has none. *)
Theorem passing_rate_limit_is_survived {R} (st : state) (r r2 : response)
  (retry_after : option retry_after_value) (seconds : nat) (text : string)
  (Hinfo : answer cl (past st) (conversations_info channel_id) = Returns r)
  (Hactive : Conv.is_archived (channel r) = false)
  (Hmember : Conv.is_member (channel r) = true)
  (Hpause : pause_of retry_after = Some seconds) :
  let set_purpose := conversations_setPurpose channel_id new_description in
  let st1 := log (Call (conversations_info channel_id)) st in
  let st2 := log (Sleep seconds) (log (Call set_purpose) st1) in
  answer cl (past st1) set_purpose = Fails "ratelimited" retry_after text ->
  answer cl (past st2) set_purpose = Returns r2 ->
  ok r2 = true ->
  @update_description cl R channel_id channel_name new_description st
  = (Normal (result true ("Successfully updated description for #" ++ channel_name)),
     log (Call set_purpose) st2).
Proof.
  cbn zeta. intros Hlimited Hreturned Hok.
  unfold update_description, update_description_membership, update_description_join,
    update_description_apply, update_description_failed.
  run_step. rewrite Hinfo. run_step. rewrite Hactive, Hmember. run_step.
  unfold max_retries. cbn [set_purpose_loop]. run_step.
  rewrite Hlimited. run_step. cbn [String.eqb Ascii.eqb Bool.eqb]. run_step.
  destruct retry_after as [[n|t]|]; cbn [pause_of] in Hpause; try discriminate;
    injection Hpause as <-; run_step; try change (Z.to_nat 5) with 5;
    rewrite Hreturned; run_step; rewrite Hok; reflexivity.
Qed.

(** X28. A rate limit whose pause cannot be computed ends the update: when
    the expression that reads the [Retry-After] entry of the response
    raises, a member's update stops after that one [setPurpose], without a
    pause, with the failure of an unexpected error that quotes the
    exception. *)
Theorem unreadable_retry_after_ends_the_update {R} (st : state) (r : response)
  (reason text : string)
  (Hinfo : answer cl (past st) (conversations_info channel_id) = Returns r)
  (Hactive : Conv.is_archived (channel r) = false)
  (Hmember : Conv.is_member (channel r) = true) :
  let set_purpose := conversations_setPurpose channel_id new_description in
  let st1 := log (Call (conversations_info channel_id)) st in
  answer cl (past st1) set_purpose
  = Fails "ratelimited" (Some (Unreadable reason)) text ->
  @update_description cl R channel_id channel_name new_description st
  = (Normal (result false (unexpected_message channel_name reason)),
     log (Call set_purpose) st1).
Proof.
  cbn zeta. intros Hlimited.
  unfold update_description, update_description_membership, update_description_join,
    update_description_apply, update_description_failed.
  run_step. rewrite Hinfo. run_step. rewrite Hactive, Hmember. run_step.
  unfold max_retries. cbn [set_purpose_loop]. run_step.
  rewrite Hlimited. run_step. cbn [String.eqb Ascii.eqb Bool.eqb]. run_step.
  reflexivity.
Qed.
End UpdateFacts.

Lemma member_neither_joins_nor_leaves_witness :
  let cl := workspace done done in
  let member :=
    {| answer := fun h c =>
         match c with
         | conversations_info _ => Returns (succeeded (conv "C1" "proj-x" true))
         | _ => answer cl h c
         end;
       listing_of := listing_of cl |} in
  exists evs,
    since (terminal [])
      (snd (@update_description member unit "C1" "proj-x" "Project X" (terminal [])))
      (Call (conversations_info "C1") :: evs)
    /\ forallb retry_event evs = true.
Proof.
  cbn zeta.
  refine (@member_neither_joins_nor_leaves _ "C1" "proj-x" "Project X" unit (terminal [])
            (succeeded (conv "C1" "proj-x" true)) _ _); reflexivity.
Defined.

Lemma refused_join_gives_up_witness :
  let cl := workspace done done in
  let closed :=
    {| answer := fun h c =>
         match c with
         | conversations_join _ => Fails "missing_scope" None "missing_scope"
         | _ => answer cl h c
         end;
       listing_of := listing_of cl |} in
  exists res,
    @update_description closed unit "C1" "proj-x" "Project X" (terminal [])
    = (Normal (Some res),
       log (Call (conversations_join "C1")) (log (Call (conversations_info "C1")) (terminal [])))
    /\ success res = false.
Proof.
  cbn zeta.
  refine (@refused_join_gives_up _ "C1" "proj-x" "Project X" unit (terminal [])
            (succeeded (conv "C1" "proj-x" false)) _ _ _ _); reflexivity.
Defined.

Lemma passing_rate_limit_is_survived_witness :
  let flaky :=
    {| answer := fun h c =>
         match c with
         | conversations_info _ => Returns (succeeded (conv "C1" "proj-x" true))
         | conversations_setPurpose _ _ =>
             if Nat.leb (set_purpose_calls h) 0
             then Fails "ratelimited" (Some (Seconds 7)) "ratelimited"
             else done
         | _ => done
         end;
       listing_of := fun _ _ => one_page directory |} in
  @update_description flaky unit "C1" "proj-x" "Project X" (terminal [])
  = (Normal (result true "Successfully updated description for #proj-x"),
     {| past := [Call (conversations_info "C1");
                 Call (conversations_setPurpose "C1" "Project X"); Sleep 7;
                 Call (conversations_setPurpose "C1" "Project X")];
        stdin := [] |}).
Proof.
  cbn zeta.
  refine (@passing_rate_limit_is_survived _ "C1" "proj-x" "Project X" unit (terminal [])
            (succeeded (conv "C1" "proj-x" true)) (succeeded (conv "C1" "proj-x" false))
            (Some (Seconds 7)) 7 "ratelimited" _ _ _ _ _ _ _); reflexivity.
Defined.

Lemma unreadable_retry_after_ends_the_update_witness :
  let garbled :=
    {| answer := fun h c =>
         match c with
         | conversations_info _ => Returns (succeeded (conv "C1" "proj-x" true))
         | conversations_setPurpose _ _ =>
             Fails "ratelimited"
               (Some (Unreadable "invalid literal for int() with base 10: 'soon'"))
               "ratelimited"
         | _ => done
         end;
       listing_of := fun _ _ => one_page directory |} in
  @update_description garbled unit "C1" "proj-x" "Project X" (terminal [])
  = (Normal (result false
       ("Unexpected error updating description for #proj-x: "
        ++ "invalid literal for int() with base 10: 'soon'")),
     {| past := [Call (conversations_info "C1");
                 Call (conversations_setPurpose "C1" "Project X")];
        stdin := [] |}).
Proof.
  cbn zeta.
  refine (@unreadable_retry_after_ends_the_update _ "C1" "proj-x" "Project X" unit
            (terminal []) (succeeded (conv "C1" "proj-x" true))
            "invalid literal for int() with base 10: 'soon'" "ratelimited" _ _ _ _);
    reflexivity.
Defined.

(** * Further properties of the snapshot accessor and of the gate *)

Section AccessorFacts.
Variable cl : client.

Lemma pages_collected {R} rest this all_channels st :
  forallb good_page (this :: rest) = true ->
  @get_all_channels_pages R this rest all_channels st
  = (Normal (all_channels ++ flat_map channels_of (this :: rest))%list,
     {| past := (past st ++ Call (conversations_list true) :: paging (List.length rest))%list;
        stdin := stdin st |}).
Proof.
  revert this all_channels st.
  induction rest as [|next rest IH]; intros this all_channels st Hgood;
    cbn [forallb] in Hgood; apply andb_prop in Hgood; destruct Hgood as [Hthis Hrest];
    destruct this as [?| |]; try discriminate; cbn [good_page] in Hthis;
    cbn [get_all_channels_pages]; run_step; rewrite Hthis; run_step.
  - cbn [flat_map channels_of paging List.length]. now rewrite app_nil_r.
  - rewrite (IH next _ _ Hrest). unfold log. cbn [past stdin flat_map channels_of paging List.length].
    now rewrite <- !app_assoc.
Qed.

Lemma pages_interrupted {R} good : forall bad rest this rest' all_channels st,
  (this :: rest' = good ++ bad :: rest)%list ->
  forallb good_page good = true -> good_page bad = false ->
  @get_all_channels_pages R this rest' all_channels st
  = (Raised (listing_failure bad),
     {| past := (past st ++ Call (conversations_list true) :: paging (List.length good))%list;
        stdin := stdin st |}).
Proof.
  induction good as [|g good IH]; intros bad rest this rest' all_channels st Hpages Hgood Hbad.
  - cbn [app] in Hpages. injection Hpages as -> ->.
    destruct rest; cbn [get_all_channels_pages]; run_step.
    all: destruct bad as [?|? ? ?|?]; cbn [good_page] in Hbad; run_step;
      try rewrite Hbad; run_step; cbn [listing_failure]; unfold scope_or;
      try match goal with
          | |- context [existsb ?f ?l] => destruct (existsb f l)
          end; reflexivity.
  - cbn [app] in Hpages. injection Hpages as -> ->.
    cbn [forallb] in Hgood. apply andb_prop in Hgood. destruct Hgood as [Hg Hgood].
    destruct g as [?| |]; try discriminate. cbn [good_page] in Hg.
    destruct (good ++ bad :: rest)%list as [|next rest''] eqn:E.
    { now destruct good. }
    cbn [get_all_channels_pages]. run_step. rewrite Hg. run_step.
    rewrite (IH bad rest next rest'' _ _ (eq_sym E) Hgood Hbad).
    unfold log. cbn [past stdin paging List.length]. now rewrite <- !app_assoc.
Qed.

(** X13. When every page of the listing comes back with [ok], the snapshot is
    the channels of all pages in order; the accessor asks for each page
    once, pauses one second between two pages, and does nothing else. *)
Theorem snapshot_collects_every_page {R} (st : state) :
  let l := listing_of cl (past st) true in
  forallb good_page (first l :: following l) = true ->
  @get_all_channels cl R st
  = (Normal (flat_map channels_of (first l :: following l)),
     {| past := (past st ++ Call (conversations_list true)
                   :: paging (List.length (following l)))%list;
        stdin := stdin st |}).
Proof.
  cbn zeta. intros Hgood. unfold get_all_channels. run_step.
  now rewrite (@pages_collected _ _ _ [] st Hgood).
Qed.

(** X14. The snapshot accessor stops at the first page that fails or comes
    back without [ok]: it raises, the channels of the pages before are lost,
    and no later page is asked for.  What it raises is a [ValueError] for the
    codes [missing_scope] and [invalid_auth]; otherwise it is the error of
    the client as it came or, for a page without [ok], the accessor's own
    [SlackApiError], whose response is that page and whose text is
    [Failed to fetch channels] followed by the page. *)
Theorem snapshot_stops_at_a_bad_page {R} (st : state) (good : list page_reply)
  (bad : page_reply) (rest : list page_reply) :
  let l := listing_of cl (past st) true in
  (first l :: following l = good ++ bad :: rest)%list ->
  forallb good_page good = true -> good_page bad = false ->
  @get_all_channels cl R st
  = (Raised (listing_failure bad),
     {| past := (past st ++ Call (conversations_list true)
                   :: paging (List.length good))%list;
        stdin := stdin st |}).
Proof.
  cbn zeta. intros Hpages Hgood Hbad. unfold get_all_channels. run_step.
  now rewrite (@pages_interrupted _ good bad rest _ _ [] st Hpages Hgood Hbad).
Qed.

(** X15. When the snapshot cannot be fetched, the run processes no record:
    every counter is zero, no channel is reported, nothing is read from the
    terminal, and nothing is called after the page that failed, in a dry
    run as in a live one. *)
Theorem failed_snapshot_processes_nothing (batch : list ChannelRecord)
  (dry_run : bool) (st : state) (good : list page_reply) (bad : page_reply)
  (rest : list page_reply) :
  let l := listing_of cl (past st) true in
  (first l :: following l = good ++ bad :: rest)%list ->
  forallb good_page good = true -> good_page bad = false ->
  execute_channel_actions cl batch dry_run st
  = (no_actions,
     {| past := (past st ++ Call (conversations_list true)
                   :: paging (List.length good))%list;
        stdin := stdin st |}).
Proof.
  cbn zeta. intros Hpages Hgood Hbad. unfold execute_channel_actions, get_all_channels.
  run_step.
  now rewrite (@pages_interrupted _ good bad rest _ _ [] st Hpages Hgood Hbad).
Qed.
End AccessorFacts.

Lemma snapshot_collects_every_page_witness :
  let two_pages :=
    {| answer := fun _ _ => done;
       listing_of := fun _ _ =>
         {| first := PageReturns {| page_ok := true; page_error := None;
                                    channels := [conv "C1" "proj-x" true];
                                    page_text := "{'ok': True}" |};
            following := [PageReturns {| page_ok := true; page_error := None;
                                         channels := [conv "C2" "old-team" false];
                                         page_text := "{'ok': True}" |}] |} |} in
  @get_all_channels two_pages unit (terminal ["y"])
  = (Normal [conv "C1" "proj-x" true; conv "C2" "old-team" false],
     {| past := [Call (conversations_list true); Sleep 1; Call (conversations_list true)];
        stdin := ["y"] |}).
Proof.
  cbn zeta.
  refine (@snapshot_collects_every_page _ unit (terminal ["y"]) _). reflexivity.
Defined.

Lemma snapshot_stops_at_a_bad_page_witness :
  let refused :=
    {| page_ok := false; page_error := None; channels := [];
       page_text := "{'ok': False}" |} in
  let broken :=
    {| answer := fun _ _ => done;
       listing_of := fun _ _ =>
         {| first := PageReturns {| page_ok := true; page_error := None;
                                    channels := [conv "C1" "proj-x" true];
                                    page_text := "{'ok': True}" |};
            following := [PageReturns refused;
                          PageReturns {| page_ok := true; page_error := None;
                                         channels := [conv "C2" "old-team" false];
                                         page_text := "{'ok': True}" |}] |} |} in
  @get_all_channels broken unit (terminal [])
  = (Raised (SlackPageError refused),
     {| past := [Call (conversations_list true); Sleep 1; Call (conversations_list true)];
        stdin := [] |})
  /\ str (SlackPageError refused)
     = "Failed to fetch channels" ++ newline
       ++ "The server responded with: {'ok': False}".
Proof.
  cbn zeta. split; [|reflexivity].
  refine (@snapshot_stops_at_a_bad_page _ unit (terminal [])
            [PageReturns {| page_ok := true; page_error := None;
                            channels := [conv "C1" "proj-x" true];
                            page_text := "{'ok': True}" |}]
            (PageReturns {| page_ok := false; page_error := None; channels := [];
                            page_text := "{'ok': False}" |})
            [PageReturns {| page_ok := true; page_error := None;
                            channels := [conv "C2" "old-team" false];
                            page_text := "{'ok': True}" |}] _ _ _);
    reflexivity.
Defined.

Lemma failed_snapshot_processes_nothing_witness :
  let down :=
    {| answer := fun _ _ => done;
       listing_of := fun _ _ =>
         {| first := PageFails "fatal_error" None "fatal_error"; following := [] |} |} in
  execute_channel_actions down five_channels false (terminal ["y"; "y"])
  = (no_actions, {| past := [Call (conversations_list true)]; stdin := ["y"; "y"] |}).
Proof.
  cbn zeta.
  refine (@failed_snapshot_processes_nothing _ five_channels false (terminal ["y"; "y"])
            [] (PageFails "fatal_error" None "fatal_error") [] _ _ _); reflexivity.
Defined.

Section GateMore.
Variable cl : client.

(** X16. The prompt is repeated until the operator decides: lines that are
    none of [y], [n] and [q] (in any case) are read and dropped, the first
    deciding line ends the gate ([q] interrupts, [y] approves, [n]
    declines), and the lines after it stay unread. *)
Theorem prompt_waits_for_a_decision {A} (junk : list string) (line : string)
  (rest : list string) (st : state) :
  forallb (fun l => negb (decisive l)) junk = true ->
  decisive line = true ->
  @prompt A (junk ++ line :: rest)%list st
  = (decision line,
     {| past := (past st ++ typed (junk ++ [line]))%list; stdin := rest |}).
Proof.
  intros Hjunk Hline. revert st.
  induction junk as [|j junk IH]; intros st; cbn [app prompt].
  - unfold decision, decisive in *. cbn [existsb] in *.
    destruct (String.eqb (Py.lower line) "q"); [reflexivity|].
    cbn [orb] in Hline. cbn [existsb]. rewrite Hline. reflexivity.
  - cbn [forallb] in Hjunk. apply andb_prop in Hjunk. destruct Hjunk as [Hj Hjunk].
    unfold decisive in Hj. cbn [existsb] in Hj.
    destruct (String.eqb (Py.lower j) "q"); [discriminate|].
    cbn [orb negb] in Hj. apply negb_true_iff in Hj. cbn [existsb]. rewrite Hj.
    rewrite (IH Hjunk). unfold log, typed. cbn [past stdin map app].
    now rewrite <- app_assoc.
Qed.

Lemma prompt_approves_on_y {A} lines : forall st st',
  @prompt A lines st = (Returned true, st') ->
  exists before line,
    since st st' (typed before ++ [Input (Some line)]) /\ Py.lower line = "y".
Proof.
  unfold since.
  induction lines as [|l lines IH]; intros st st'; cbn [prompt]; [discriminate|].
  destruct (String.eqb (Py.lower l) "q"); [discriminate|].
  cbn [existsb orb].
  destruct (String.eqb_spec (Py.lower l) "y") as [Hy|Hy].
  - cbn [orb]. intros [= <-]. exists [], l. now split.
  - destruct (String.eqb (Py.lower l) "n"); cbn [orb]; [discriminate|].
    intros H. apply IH in H. destruct H as (before & line & E & Hline).
    exists (l :: before), line. split; [|exact Hline].
    rewrite E. unfold log, typed. cbn [past stdin map app]. now rewrite <- app_assoc.
Qed.

(** X17. The gate approves only what the operator approved: when it returns
    [True], the last thing that happened is a line of the operator that is
    [y] once lowercased, and before it the gate only looked up channels and
    read lines; it made no call that changes the workspace. *)
Theorem gate_approves_only_on_y {R} (ch : ChannelRecord) (action : string)
  (target_value : option string) (current_channels : option (list Conv.t))
  (st st' : state) :
  @get_user_approval cl R ch action target_value current_channels st = (Normal true, st') ->
  exists evs line,
    since st st' (evs ++ [Input (Some line)])
    /\ Py.lower line = "y"
    /\ Forall harmless evs.
Proof.
  unfold since, get_user_approval, get_channel_info. run_step.
  repeat (first [ask_client | branch_more]; run_step).
  all: try discriminate.
  all: match goal with
       | |- context [prompt ?lines ?st0] =>
           let Hp := fresh "Hp" in
           let Hn := fresh "Hn" in
           pose proof (@prompt_approves_on_y bool lines st0) as Hp;
           pose proof (@prompt_events bool lines st0) as Hn;
           destruct (@prompt bool lines st0) as [[?|[]|?] st3]; try discriminate;
           [now destruct Hn as (? & _ & _ & ?)|]; clear Hn;
           specialize (Hp st3 eq_refl); destruct Hp as (before & line & E & Hline)
       end.
  all: match goal with
       | E : since _ _ (typed ?before ++ [Input (Some ?line)]),
         Hline : Py.lower ?line = "y" |- _ =>
           intros [= <-]; unfold since in E; rewrite E;
           unfold log; cbn [past stdin]; rewrite <- ?app_assoc; cbn [app];
           rewrite ?app_comm_cons; eexists; exists line;
           split; [reflexivity|]; split; [exact Hline|];
           repeat (constructor; [reflexivity|]);
           unfold typed; apply Forall_forall; intros e He; apply in_map_iff in He;
           destruct He as (x & <- & _); reflexivity
       end.
Qed.

(** X18. An archive with a redirect to a channel that the snapshot does not
    have is never offered to the operator: the gate looks up the channel,
    declines, and leaves the terminal untouched. *)
Theorem unknown_redirect_is_not_offered {R} (ch : ChannelRecord) (target : string)
  (current_channels : list Conv.t) (st : state) :
  Py.truthy target = true ->
  nonempty current_channels = true ->
  find_by_name (Py.lstrip "#" target) current_channels = None ->
  answered (answer cl (past st) (conversations_info (channel_id ch))) = true ->
  @get_user_approval cl R ch (value ARCHIVE) (Some target) (Some current_channels) st
  = (Normal false, log (Call (conversations_info (channel_id ch))) st).
Proof.
  intros Htarget Hsome Hnone Hinfo.
  unfold get_user_approval, get_channel_info. run_step.
  cbn [value String.eqb Ascii.eqb Bool.eqb Py.truthy_opt nonempty_opt list_of str_of].
  rewrite Htarget, Hsome, Hnone.
  ask_client; try discriminate; run_step; reflexivity.
Qed.

(** X19. A rename to a name that a channel of the snapshot already has is
    never offered to the operator: whatever the name checks say, once the
    lookup of the channel is answered the gate declines and leaves the
    terminal untouched. *)
Theorem taken_name_is_not_offered {R} (ch : ChannelRecord) (new_name : string)
  (current_channels : list Conv.t) (st : state) :
  Py.truthy new_name = true ->
  name_taken new_name current_channels = true ->
  answered (answer cl (past st) (conversations_info (channel_id ch))) = true ->
  @get_user_approval cl R ch (value RENAME) (Some new_name) (Some current_channels) st
  = (Normal false, log (Call (conversations_info (channel_id ch))) st).
Proof.
  intros Hname Htaken Hinfo.
  assert (Hsome : nonempty current_channels = true).
  { destruct current_channels; [discriminate|reflexivity]. }
  unfold get_user_approval, get_channel_info. run_step.
  cbn [value String.eqb Ascii.eqb Bool.eqb Py.truthy_opt nonempty_opt list_of str_of].
  rewrite Hname, Hsome, Htaken.
  ask_client; try discriminate; run_step; destruct (rename_check new_name); run_step;
    reflexivity.
Qed.
End GateMore.

Lemma prompt_waits_for_a_decision_witness :
  @prompt unit ["yes"; ""; "N"; "y"] (terminal ["yes"; ""; "N"; "y"])
  = (Returned false,
     {| past := [Input (Some "yes"); Input (Some ""); Input (Some "N")]; stdin := ["y"] |}).
Proof.
  refine (@prompt_waits_for_a_decision unit ["yes"; ""] "N" ["y"]
            (terminal ["yes"; ""; "N"; "y"]) _ _); reflexivity.
Defined.

Lemma gate_approves_only_on_y_witness :
  exists evs line,
    since (terminal ["maybe"; "Y"; "n"])
      {| past := [Call (conversations_info "C2"); Input (Some "maybe"); Input (Some "Y")];
         stdin := ["n"] |}
      (evs ++ [Input (Some line)])
    /\ Py.lower line = "y"
    /\ Forall harmless evs.
Proof.
  refine (@gate_approves_only_on_y calm unit (row "C2" "old-team" "update_description" (Some "Old"))
            "update_description" (Some "Old") (Some directory)
            (terminal ["maybe"; "Y"; "n"]) _ _).
  reflexivity.
Defined.

Lemma unknown_redirect_is_not_offered_witness :
  @get_user_approval calm unit (row "C2" "old-team" "archive" (Some "#nowhere"))
    "archive" (Some "#nowhere") (Some directory) (terminal ["y"])
  = (Normal false, {| past := [Call (conversations_info "C2")]; stdin := ["y"] |}).
Proof.
  refine (@unknown_redirect_is_not_offered calm unit
            (row "C2" "old-team" "archive" (Some "#nowhere")) "#nowhere" directory
            (terminal ["y"]) _ _ _ _); reflexivity.
Defined.

Lemma taken_name_is_not_offered_witness :
  @get_user_approval calm unit (row "C2" "old-team" "rename" (Some "proj-x"))
    "rename" (Some "proj-x") (Some directory) (terminal ["y"])
  = (Normal false, {| past := [Call (conversations_info "C2")]; stdin := ["y"] |}).
Proof.
  refine (@taken_name_is_not_offered calm unit
            (row "C2" "old-team" "rename" (Some "proj-x")) "proj-x" directory
            (terminal ["y"]) _ _ _); reflexivity.
Defined.

(** * Further properties of the orchestrator *)

Lemma offline_refl st : offline st st.
Proof. split; [reflexivity|]. exists []. unfold since. now rewrite app_nil_r. Qed.

Lemma offline_step st st' e :
  offline st st' -> not_input e = true -> offline st (log e st').
Proof.
  intros (Hin & evs & E & Hevs) He. split; [exact Hin|].
  exists (evs ++ [e])%list. unfold since, log in *. cbn [past]. rewrite E, app_assoc.
  split; [reflexivity|]. rewrite forallb_app, Hevs. cbn. now rewrite He.
Qed.

Lemma offline_trans st st1 st2 : offline st st1 -> offline st1 st2 -> offline st st2.
Proof.
  intros (Hin1 & evs1 & E1 & H1) (Hin2 & evs2 & E2 & H2). split; [congruence|].
  exists (evs1 ++ evs2)%list. unfold since in *. rewrite E2, E1, app_assoc.
  split; [reflexivity|]. now rewrite forallb_app, H1, H2.
Qed.

Ltac stays_offline :=
  cbn [snd];
  repeat (apply offline_step; [|reflexivity]);
  first [apply offline_refl | assumption].

Section QuietHandler.
Variable cl : client.

Lemma find_target_offline {R} rest this target_channel st :
  offline st (snd (@find_target R this rest target_channel st)).
Proof.
  revert this st. induction rest as [|next rest IH]; intros this st;
    cbn [find_target]; run_step; destruct this; run_step;
    try stays_offline; branch; run_step; try stays_offline.
  eapply offline_trans; [|apply IH]. stays_offline.
Qed.

Lemma set_purpose_loop_offline cid cname desc was_member remaining retry_count st :
  offline st (snd (set_purpose_loop cl cid cname desc was_member remaining retry_count st)).
Proof.
  revert retry_count st. induction remaining as [|remaining IH]; intros retry_count st.
  - apply offline_refl.
  - cbn [set_purpose_loop]. run_step.
    repeat (first [ask_client | branch]; run_step).
    all: try stays_offline.
    all: eapply offline_trans; [|apply IH]; stays_offline.
Qed.

Ltac use_offline :=
  match goal with
  | |- context [@find_target ?R ?this ?rest ?name ?st] =>
      let H := fresh "Hoff" in
      pose proof (@find_target_offline R rest this name st) as H;
      destruct (@find_target R this rest name st) as [[?|?|[]] ?]; cbn [snd] in H
  | |- context [set_purpose_loop ?c ?i ?n ?d ?w ?r ?k ?st] =>
      let H := fresh "Hoff" in
      pose proof (set_purpose_loop_offline i n d w r k st) as H;
      destruct (set_purpose_loop c i n d w r k st) as [[?|?|[]] ?]; cbn [snd] in H
  end.

Ltac offline_via :=
  match goal with
  | H : offline ?a ?b |- offline ?st _ =>
      apply offline_trans with (st1 := b);
      [apply offline_trans with (st1 := a); [stays_offline | exact H] | stays_offline]
  end.

Lemma execute_action_offline {R} channel_id channel_name action target_value current st :
  offline st (snd (@execute_action cl R channel_id channel_name action target_value
                     current st)).
Proof.
  unfold execute_action, archive_channel, rename_channel, update_description,
    update_description_membership, update_description_join, update_description_apply,
    update_description_failed.
  run_step.
  repeat (first [ask_client | branch | use_offline]; run_step).
  all: first [stays_offline | offline_via].
Qed.
End QuietHandler.

Ltac ask_gate :=
  match goal with
  | |- context [@get_user_approval ?c ?R ?a ?b ?d ?e ?f] =>
      let H := fresh "Hg" in
      pose proof (@get_user_approval_events c R a b d e f) as H;
      destruct (@get_user_approval c R a b d e f) as [[[]|?|[]] ?];
      destruct H as (evs & E & Hh & Ha); try contradiction
  end.

Section RunFacts.
Variable cl : client.

Lemma process_channel_counts dry_run current ch acc st :
  match fst (process_channel cl dry_run current ch acc st) with
  | Normal acc' | Returned (continue_ acc') | Returned (break_ acc') =>
      processed acc' <= processed acc + 1
  | Raised _ => True
  end.
Proof.
  unfold process_channel. run_step.
  repeat (branch; run_step).
  all: try (unfold processed; cbn; lia).
  all: ask_gate; run_step.
  all: repeat (first [call_def | branch]; run_step).
  all: first [exact I | unfold processed; cbn; lia].
Qed.

Lemma for_each_channel_counts dry_run current batch : forall acc st,
  processed (snd (fst (for_each_channel cl dry_run current batch acc st)))
  <= processed acc + List.length batch.
Proof.
  induction batch as [|ch batch IH]; intros acc st; cbn [for_each_channel List.length].
  - cbn. lia.
  - pose proof (process_channel_counts dry_run current ch acc st) as Hp.
    destruct (process_channel cl dry_run current ch acc st) as [[acc'|[acc'|acc']|e] st1];
      cbn [fst snd] in *.
    1,2: specialize (IH acc' st1); lia.
    all: lia.
Qed.

(** X20. The counters of the summary never count more than the batch has
    records: successful, failed and skipped together are at most the
    length of the batch, in a dry run as in a live one, whatever the
    service and the operator do. *)
Theorem summary_counts_at_most_the_batch (batch : list ChannelRecord)
  (dry_run : bool) (st : state) :
  processed (fst (execute_channel_actions cl batch dry_run st)) <= List.length batch.
Proof.
  unfold execute_channel_actions.
  destruct (@get_all_channels cl unit st) as [[current|?|?] st1]; cbn [fst];
    try (cbn; lia).
  pose proof (for_each_channel_counts dry_run current (sorted action_priority batch)
                no_actions st1) as H.
  destruct (for_each_channel cl dry_run current _ no_actions st1) as [[en acc] st2].
  cbn [fst snd] in *. rewrite <- (Permutation_length (sorted_perm action_priority batch)) in H.
  exact H.
Qed.

Lemma process_channel_live current ch acc st :
  match fst (process_channel cl false current ch acc st) with
  | Normal acc' | Returned (continue_ acc') | Returned (break_ acc') =>
      (successful acc' = successful acc
       /\ successful_channel_ids acc' = successful_channel_ids acc)
      \/ (successful acc' = successful acc + 1
          /\ successful_channel_ids acc'
             = (successful_channel_ids acc ++ [channel_id ch])%list)
  | Raised _ => True
  end.
Proof.
  unfold process_channel. run_step.
  repeat (branch; run_step).
  all: try exact I; try (left; split; reflexivity).
  all: ask_gate; run_step.
  all: repeat (first [call_def | branch]; run_step).
  all: first [exact I | left; split; reflexivity | right; split; reflexivity].
Qed.

Lemma subsequence_empty {A} (l : list A) : subsequence [] l.
Proof. induction l; now constructor. Qed.

Lemma for_each_channel_live current batch : forall acc st,
  let acc' := snd (fst (for_each_channel cl false current batch acc st)) in
  exists achieved,
    subsequence achieved batch
    /\ successful_channel_ids acc'
       = (successful_channel_ids acc ++ map channel_id achieved)%list
    /\ successful acc' = successful acc + List.length achieved.
Proof.
  induction batch as [|ch batch IH]; intros acc st; cbn [for_each_channel].
  - exists []. cbn. rewrite app_nil_r. repeat split; [constructor|lia].
  - pose proof (process_channel_live current ch acc st) as Hp.
    destruct (process_channel cl false current ch acc st) as [[acc'|[acc'|acc']|e] st1];
      cbn [fst snd] in *.
    1,2: destruct (IH acc' st1) as (achieved & Hsub & Hids & Hn);
      destruct Hp as [[Hs Hi]|[Hs Hi]];
      [ exists achieved; split; [now constructor|]; split; [congruence|lia]
      | exists (ch :: achieved); split; [now constructor|]; cbn [map List.length];
        split; [rewrite Hids, Hi, <- app_assoc; reflexivity|lia] ].
    + destruct Hp as [[Hs Hi]|[Hs Hi]].
      * exists []. cbn. rewrite app_nil_r. split; [apply subsequence_empty|]. split; [congruence|lia].
      * exists [ch]. cbn. split; [apply subsequence_take, subsequence_empty|]. split; [congruence|lia].
    + exists []. cbn. rewrite app_nil_r. split; [apply subsequence_empty|]. split; [reflexivity|lia].
Qed.

(** X21. In a live run the returned list of channels is the list of the
    successes: it has one entry for each successful action, and its
    entries are the identities of records of the batch, in the order of
    processing. *)
Theorem live_successes_are_the_reported_channels (batch : list ChannelRecord)
  (st : state) :
  let summary := fst (execute_channel_actions cl batch false st) in
  exists achieved,
    subsequence achieved (sorted action_priority batch)
    /\ successful_channel_ids summary = map channel_id achieved
    /\ successful summary = List.length achieved.
Proof.
  cbn zeta. unfold execute_channel_actions.
  destruct (@get_all_channels cl unit st) as [[current|?|?] st1]; cbn [fst].
  2,3: exists []; repeat split; apply subsequence_empty.
  pose proof (for_each_channel_live current (sorted action_priority batch)
                no_actions st1) as H.
  destruct (for_each_channel cl false current _ no_actions st1) as [[en acc] st2].
  cbn [fst snd] in *. exact H.
Qed.
End RunFacts.

Section FilterFacts.
Variable A : Type.
Variable key : A -> nat.
Variable keep : A -> bool.

Lemma insert_first x l : Forall (fun y => key x <= key y) l -> insert key x l = x :: l.
Proof.
  destruct l as [|y l]; [reflexivity|]. intros H. cbn [insert].
  apply Forall_inv in H. apply Nat.leb_le in H. now rewrite H.
Qed.

Lemma filter_insert x l :
  ordered key l ->
  filter keep (insert key x l)
  = if keep x then insert key x (filter keep l) else filter keep l.
Proof.
  induction l as [|y l IH]; intros Hl.
  - cbn. now destruct (keep x).
  - apply ordered_cons in Hl as [Hall Hl]. cbn [insert].
    destruct (Nat.leb (key x) (key y)) eqn:Hxy.
    + apply Nat.leb_le in Hxy.
      assert (Hbound : Forall (fun z => key x <= key z) (filter keep (y :: l))).
      { apply Forall_forall. intros z Hz. apply filter_In in Hz as [Hz _].
        destruct Hz as [<-|Hz]; [exact Hxy|].
        apply (proj1 (Forall_forall _ _) Hall) in Hz. lia. }
      change (filter keep (x :: y :: l)) with
        (if keep x then x :: filter keep (y :: l) else filter keep (y :: l)).
      destruct (keep x); [|reflexivity].
      symmetry. now apply insert_first.
    + cbn [filter]. rewrite (IH Hl).
      destruct (keep y), (keep x); try reflexivity.
      cbn [insert]. now rewrite Hxy.
Qed.

Lemma sorted_filter l : sorted key (filter keep l) = filter keep (sorted key l).
Proof.
  induction l as [|x l IH]; [reflexivity|].
  cbn [filter sorted]. rewrite filter_insert by apply sorted_ordered.
  destruct (keep x); [cbn [sorted]|]; now rewrite IH.
Qed.
End FilterFacts.

Section RunMore.
Variable cl : client.

Lemma process_channel_inert dry_run current ch acc st :
  inert ch = true ->
  process_channel cl dry_run current ch acc st = (Returned (continue_ acc), st).
Proof.
  unfold inert, valid, process_channel. intros H.
  apply andb_prop in H as [Hvalid Haction]. apply andb_prop in Hvalid as [Hid Hname].
  rewrite Hid, Hname. run_step.
  destruct (action ch) as [a|]; [|discriminate]. run_step.
  destruct (Py.truthy (Py.lower a)); run_step; [|reflexivity].
  cbn [negb orb] in Haction. rewrite Haction. reflexivity.
Qed.

Lemma for_each_channel_inert dry_run current batch : forall acc st,
  for_each_channel cl dry_run current (filter (fun ch => negb (inert ch)) batch) acc st
  = for_each_channel cl dry_run current batch acc st.
Proof.
  induction batch as [|ch batch IH]; intros acc st; [reflexivity|].
  cbn [filter]. destruct (inert ch) eqn:Hch; cbn [negb].
  - cbn [for_each_channel]. rewrite (@process_channel_inert dry_run current ch acc st Hch).
    apply IH.
  - cbn [for_each_channel].
    destruct (process_channel cl dry_run current ch acc st) as [[acc'|[acc'|acc']|e] st1];
      try reflexivity; apply IH.
Qed.

(** X22. Records that are complete and whose action is [keep] or empty
    change nothing: a run on the batch without them makes the same calls,
    asks the same questions and ends with the same summary as the run on
    the whole batch. *)
Theorem kept_records_change_nothing (batch : list ChannelRecord) (dry_run : bool)
  (st : state) :
  execute_channel_actions cl (filter (fun ch => negb (inert ch)) batch) dry_run st
  = execute_channel_actions cl batch dry_run st.
Proof.
  unfold execute_channel_actions.
  destruct (@get_all_channels cl unit st) as [[current|?|?] st1]; try reflexivity.
  now rewrite sorted_filter, for_each_channel_inert.
Qed.

Lemma get_channel_info_offline {R} channel_id st :
  offline st (snd (@get_channel_info cl R channel_id st)).
Proof.
  unfold get_channel_info. run_step. ask_client; run_step; stays_offline.
Qed.

Ltac call_offline :=
  match goal with
  | |- context [@get_channel_info ?c ?R ?i ?s] =>
      let H := fresh "Hdef" in
      let Hoff := fresh "Hoff" in
      pose proof (@get_channel_info_outcome c R i s) as H;
      pose proof (@get_channel_info_offline R i s) as Hoff;
      destruct (@get_channel_info c R i s) as [[?|?|?] ?]; cbn [fst snd] in H, Hoff;
      [ | contradiction | ]
  | |- context [@execute_action ?c ?R ?i ?n ?a ?t ?cur ?s] =>
      let H := fresh "Hdef" in
      let Hoff := fresh "Hoff" in
      pose proof (@execute_action_outcome c R i n a t cur s) as H;
      pose proof (@execute_action_offline c R i n a t cur s) as Hoff;
      destruct (@execute_action c R i n a t cur s) as [[?|?|?] ?]; cbn [fst snd] in H, Hoff;
      [ | contradiction | ]
  end.

Lemma offline_since st st' : offline st st' -> exists evs, since st st' evs.
Proof. intros (_ & evs & E & _). now exists evs. Qed.

Lemma process_channel_approved dry_run current ch acc st :
  let (o, st') := process_channel cl dry_run current ch acc st in
  exists evs,
    since st st' evs
    /\ (approvals evs = 0 -> Forall harmless evs)
    /\ match o with
       | Normal acc' | Returned (continue_ acc') | Returned (break_ acc') =>
           successful acc' <= successful acc + approvals evs
       | Raised _ => True
       end.
Proof.
  unfold process_channel, since. run_step.
  repeat (branch; run_step).
  all: try (exists []; rewrite app_nil_r; repeat split; try constructor; cbn; lia).
  all: ask_gate;
    try match type of Ha with _ /\ _ => destruct Ha as [Ha _] end; run_step.
  all: try (exists evs; split; [assumption|]; split;
            [intros _; assumption | first [exact I | cbn; lia]]).
  all: repeat (first [call_offline | branch]; run_step).
  all: match goal with
       | |- exists _, past ?s = _ /\ _ =>
           match goal with
           | E : past ?s1 = (past _ ++ ?evs)%list, Ha : approvals ?evs = 1 |- _ =>
               let Hoff := fresh "Hoff" in
               assert (Hoff : offline s1 s)
                 by (repeat (apply offline_step; [|reflexivity]);
                     eauto using offline_refl, offline_trans);
               apply offline_since in Hoff; destruct Hoff as (evs2 & E2);
               unfold since in E2; exists (evs ++ evs2)%list;
               rewrite E2, E, app_assoc, approvals_app, Ha;
               split; [reflexivity|]; split;
                 [intros H0; cbn in H0; lia | first [exact I | cbn; lia]]
           end
       end.
Qed.

Lemma for_each_channel_approved dry_run current batch : forall acc st,
  let '(_, acc', st') := for_each_channel cl dry_run current batch acc st in
  exists evs,
    since st st' evs
    /\ (approvals evs = 0 -> Forall harmless evs)
    /\ successful acc' <= successful acc + approvals evs.
Proof.
  unfold since.
  induction batch as [|ch batch IH]; intros acc st; cbn [for_each_channel].
  - exists []. rewrite app_nil_r. repeat split; [constructor|lia].
  - pose proof (process_channel_approved dry_run current ch acc st) as Hp.
    unfold since in Hp.
    destruct (process_channel cl dry_run current ch acc st) as [[acc'|[acc'|acc']|e] st1];
      destruct Hp as (evs1 & E1 & Hh1 & H1).
    1,2: specialize (IH acc' st1);
      destruct (for_each_channel cl dry_run current batch acc' st1) as [[en acc2] st2];
      destruct IH as (evs2 & E2 & Hh2 & H2);
      exists (evs1 ++ evs2)%list; rewrite E2, E1, app_assoc, approvals_app;
      split; [reflexivity|]; split; [|lia];
      intros H0; apply Forall_app; split; [apply Hh1|apply Hh2]; lia.
    + exists evs1. now repeat split.
    + exists evs1. repeat split; try assumption. lia.
Qed.

(** X23. Nothing changes without an approval: in every run, dry or live,
    the number of successful actions is at most the number of lines with
    which the operator approved, and when the operator approved nothing,
    no call that changes the workspace was made. *)
Theorem nothing_changes_without_approval (batch : list ChannelRecord)
  (dry_run : bool) (st : state) :
  let (summary, st') := execute_channel_actions cl batch dry_run st in
  exists evs,
    since st st' evs
    /\ successful summary <= approvals evs
    /\ (approvals evs = 0 -> Forall harmless evs).
Proof.
  unfold execute_channel_actions, since.
  pose proof (@get_all_channels_events cl unit st) as Hs.
  destruct (@get_all_channels cl unit st) as [[current|?|?] st1];
    destruct Hs as (evs1 & E1 & Hh1 & Ha1).
  2,3: exists evs1; split; [exact E1|]; split; [cbn; lia|intros _; exact Hh1].
  pose proof (for_each_channel_approved dry_run current (sorted action_priority batch)
                no_actions st1) as Hl.
  destruct (for_each_channel cl dry_run current _ no_actions st1) as [[en acc] st2].
  destruct Hl as (evs2 & E2 & Hh2 & Hs2).
  exists (evs1 ++ evs2)%list. unfold since in E2. rewrite E2, E1, app_assoc, approvals_app.
  split; [reflexivity|]. split; [cbn in Hs2; lia|].
  intros H0. apply Forall_app. split; [exact Hh1|apply Hh2; lia].
Qed.

(** X24. The handler never asks the operator anything: whatever the action
    and the answers of the service, [execute_action] leaves the lines of
    the terminal unread, and all that happens is calls and pauses that
    come after what happened before. *)
Theorem handler_never_reads_the_terminal {R} (channel_id channel_name action : string)
  (target_value : option string) (current_channels : option (list Conv.t))
  (st : state) :
  let st' := snd (@execute_action cl R channel_id channel_name action target_value
                    current_channels st) in
  stdin st' = stdin st
  /\ exists evs, since st st' evs /\ forallb not_input evs = true.
Proof. apply execute_action_offline. Qed.
End RunMore.

Section RunEdges.
Variable cl : client.

Lemma process_channel_unusable dry_run current ch acc st :
  unusable ch = true ->
  process_channel cl dry_run current ch acc st = (Returned (continue_ (skip acc)), st).
Proof.
  unfold unusable, valid, process_channel. intros H.
  destruct (Py.truthy (channel_id ch)); [|reflexivity].
  destruct (Py.truthy (name ch)); [|reflexivity].
  cbn [andb negb orb] in H. run_step.
  destruct (action ch) as [a|]; [|discriminate]. run_step.
  apply andb_prop in H as [Htruthy Hvalues]. rewrite Htruthy. run_step.
  apply negb_true_iff in Hvalues.
  assert (Hkeep : String.eqb (Py.lower a) (value KEEP) = false).
  { unfold in_values, values in Hvalues. cbn [map existsb value] in Hvalues.
    cbn [value]. destruct (String.eqb (Py.lower a) "keep"); [discriminate|reflexivity]. }
  rewrite Hkeep, Hvalues. reflexivity.
Qed.

Lemma for_each_channel_unusable dry_run current batch : forall acc st,
  Forall (fun ch => unusable ch = true) batch ->
  exists acc',
    for_each_channel cl dry_run current batch acc st = (Exhausted, acc', st)
    /\ successful acc' = successful acc /\ failed acc' = failed acc
    /\ skipped acc' = skipped acc + List.length batch
    /\ successful_channel_ids acc' = successful_channel_ids acc.
Proof.
  induction batch as [|ch batch IH]; intros acc st Hall; cbn [for_each_channel].
  - exists acc. cbn. repeat split; lia.
  - inversion Hall as [|? ? Hch Hrest]; subst.
    rewrite (@process_channel_unusable dry_run current ch acc st Hch).
    destruct (IH (skip acc) st Hrest) as (acc' & -> & Hs & Hf & Hk & Hi).
    exists acc'. cbn in *. repeat split; try assumption. lia.
Qed.

(** X25. A batch of records that lack their identity field or their name, or
    whose action is not one of [ChannelAction], is skipped as a whole:
    after the snapshot nothing is called and nobody is asked, nothing
    succeeds or fails, and, when the snapshot was fetched, every record is
    counted as skipped. *)
Theorem unusable_batch_is_skipped (batch : list ChannelRecord) (dry_run : bool)
  (st : state) :
  Forall (fun ch => unusable ch = true) batch ->
  let (summary, st') := execute_channel_actions cl batch dry_run st in
  st' = snd (@get_all_channels cl unit st)
  /\ successful summary = 0 /\ failed summary = 0
  /\ successful_channel_ids summary = []
  /\ ((exists current, fst (@get_all_channels cl unit st) = Normal current) ->
      skipped summary = List.length batch).
Proof.
  intros Hall. unfold execute_channel_actions.
  destruct (@get_all_channels cl unit st) as [[current|?|?] st1]; cbn [fst snd].
  2,3: repeat split; intros (current & Hc); discriminate Hc.
  assert (Hsorted : Forall (fun ch => unusable ch = true) (sorted action_priority batch)).
  { eapply Permutation_Forall; [apply sorted_perm|exact Hall]. }
  destruct (for_each_channel_unusable dry_run current no_actions st1 Hsorted)
    as (acc' & -> & Hs & Hf & Hk & Hi).
  repeat split; try assumption. intros _.
  rewrite Hk. cbn. symmetry. apply Permutation_length, sorted_perm.
Qed.

(** X26. A record whose channel is not what it was any more is not
    executed: when the operator approved in a live run but the lookup that
    follows is refused, or shows the channel archived or under another
    name, the record is counted as failed, the handler is not invoked,
    and the turn ends at once, without the pause. *)
Theorem stale_record_is_not_executed (current : list Conv.t) (ch : ChannelRecord)
  (a : string) (acc : ExecutionSummary) (st st1 : state) :
  valid ch = true ->
  action ch = Some a ->
  Py.lower a <> value KEEP ->
  in_values (Py.lower a) = true ->
  @get_user_approval cl jump ch (Py.lower a) (target_value ch) (Some current) st
  = (Normal true, st1) ->
  stale cl ch (past st1) = true ->
  process_channel cl false current ch acc st
  = (Returned (continue_ (fail acc)),
     log (Call (conversations_info (channel_id ch))) st1).
Proof.
  unfold valid, stale, process_channel, get_channel_info.
  intros Hvalid Haction Hkeep Hvalues Hgate Hstale.
  apply andb_prop in Hvalid as [Hid Hname]. rewrite Hid, Hname, Haction. run_step.
  assert (Htruthy : Py.truthy (Py.lower a) = true).
  { destruct (Py.lower a); [discriminate Hvalues|reflexivity]. }
  rewrite Htruthy. run_step.
  destruct (String.eqb_spec (Py.lower a) (value KEEP)) as [Hk|_]; [contradiction|].
  rewrite Hvalues. run_step. rewrite Hgate. run_step.
  destruct (answer cl (past st1) (conversations_info (channel_id ch))) as [r|? ? ?|?];
    run_step; [|reflexivity|discriminate].
  destruct (Conv.is_archived (channel r)); run_step; [reflexivity|].
  cbn [orb] in Hstale. apply negb_true_iff in Hstale. rewrite Hstale. reflexivity.
Qed.

Lemma process_channel_dry_advice current ch acc st :
  match fst (process_channel cl true current ch acc st) with
  | Normal acc' | Returned (continue_ acc') | Returned (break_ acc') =>
      last_action acc' = last_action acc
  | Raised _ => True
  end.
Proof.
  unfold process_channel. run_step.
  repeat (branch; run_step).
  all: try exact I; try reflexivity.
  all: ask_gate; run_step.
  all: first [exact I | reflexivity].
Qed.

Lemma for_each_channel_dry_advice current batch : forall acc st,
  last_action (snd (fst (for_each_channel cl true current batch acc st)))
  = last_action acc.
Proof.
  induction batch as [|ch batch IH]; intros acc st; cbn [for_each_channel]; [reflexivity|].
  pose proof (process_channel_dry_advice current ch acc st) as Hp.
  destruct (process_channel cl true current ch acc st) as [[acc'|[acc'|acc']|e] st1];
    cbn [fst snd] in *.
  1,2: rewrite IH; exact Hp.
  all: first [exact Hp | reflexivity].
Qed.

(** X27. A dry run never gives the advice on how to undo the last archive:
    that advice follows the last action that was really carried out, and
    a dry run carries out none. *)
Theorem dry_run_gives_no_undo_advice (batch : list ChannelRecord) (st : state) :
  undo_note (fst (execute_channel_actions cl batch true st)) = None.
Proof.
  unfold execute_channel_actions, undo_note.
  destruct (@get_all_channels cl unit st) as [[current|?|?] st1]; try reflexivity.
  pose proof (for_each_channel_dry_advice current (sorted action_priority batch)
                no_actions st1) as H.
  destruct (for_each_channel cl true current _ no_actions st1) as [[en acc] st2].
  cbn [fst snd] in *. now rewrite H.
Qed.
End RunEdges.

Lemma unusable_batch_is_skipped_witness :
  let batch := [row "" "nameless" "archive" None; row "C1" "proj-x" "delete" None] in
  let (summary, st') := execute_channel_actions calm batch false (terminal ["y"]) in
  st' = snd (@get_all_channels calm unit (terminal ["y"]))
  /\ successful summary = 0 /\ failed summary = 0
  /\ successful_channel_ids summary = []
  /\ ((exists current, fst (@get_all_channels calm unit (terminal ["y"])) = Normal current) ->
      skipped summary = 2).
Proof.
  cbn zeta.
  refine (@unusable_batch_is_skipped calm
            [row "" "nameless" "archive" None; row "C1" "proj-x" "delete" None]
            false (terminal ["y"]) _).
  repeat constructor.
Defined.

Lemma stale_record_is_not_executed_witness :
  let moved :=
    {| answer := fun h c =>
         match c with
         | conversations_info _ =>
             if forallb not_input h
             then Returns (succeeded (conv "C2" "old-team" false))
             else Returns (succeeded (conv "C2" "new-team" false))
         | _ => done
         end;
       listing_of := fun _ _ => one_page directory |} in
  process_channel moved false directory (row "C2" "old-team" "Archive" None) no_actions
    (terminal ["y"])
  = (Returned (continue_ (fail no_actions)),
     {| past := [Call (conversations_info "C2"); Input (Some "y");
                 Call (conversations_info "C2")];
        stdin := [] |}).
Proof.
  cbn zeta.
  refine (@stale_record_is_not_executed _ directory (row "C2" "old-team" "Archive" None)
            "Archive" no_actions (terminal ["y"])
            {| past := [Call (conversations_info "C2"); Input (Some "y")]; stdin := [] |}
            _ _ _ _ _ _); try reflexivity.
  discriminate.
Defined.
